(** * Personal Finance Analyst: the web client and the query interface

    A shallow embedding of the Next.js client ([web/src/lib/api.ts], the chat
    page and the upload page) together with a model of the deterministic
    query engine that the client talks to.  The client is embedded from its
    TypeScript source; the engine is not part of the client sources and is
    modelled from the design document (every such definition says so). *)

From Stdlib Require Import ZArith String Ascii List Lia DecimalString.
From stdpp Require Import base option list gmap strings sorting.
Import ListNotations.

(** ** JavaScript values used by the client *)

Module Js.

Local Open Scope string_scope.

(** A JS string is modelled as a [string] whose characters are the code
    units U+0000 to U+00FF (Basic Latin and Latin-1); text with code units
    from U+0100 on is outside the model.  The empty string is the only falsy
    string. *)
Definition truthy_string (s : string) : bool :=
  match s with
  | EmptyString => false
  | String _ _ => true
  end.

(** [undefined]/[null] are [None]; a present string is truthy when it is
    not empty. *)
Definition truthy (v : option string) : bool :=
  match v with
  | Some s => truthy_string s
  | None => false
  end.

(** [a || b] on possibly-missing strings, with a string fallback on the
    right: the left operand when it is truthy, the right one otherwise. *)
Definition or_else (a : option string) (b : string) : string :=
  match a with
  | Some s => if truthy_string s then s else b
  | None => b
  end.

(** [a ?? b]: the left operand unless it is [undefined]/[null]. *)
Definition nullish_else (a : option string) (b : string) : string :=
  match a with
  | Some s => s
  | None => b
  end.

(** The [WhiteSpace] and [LineTerminator] code units that
    [String.prototype.trim], [parseInt] and [parseFloat] strip.  Among the
    code units below 0x100 these are TAB, LF, VT, FF, CR, SPACE and the
    no-break space U+00A0; the others (U+1680, U+2000 to U+200A, U+2028,
    U+2029, U+202F, U+205F, U+3000, U+FEFF) lie above 0xFF. *)
Definition is_white (c : ascii) : bool :=
  let n := nat_of_ascii c in
  (Nat.eqb n 9 || Nat.eqb n 10 || Nat.eqb n 11 || Nat.eqb n 12
   || Nat.eqb n 13 || Nat.eqb n 32 || Nat.eqb n 160)%bool.

Fixpoint trim_start (s : string) : string :=
  match s with
  | String c r => if is_white c then trim_start r else s
  | EmptyString => EmptyString
  end.

(** Drops trailing white space: a character is kept when it is not white or
    when something is kept after it. *)
Fixpoint trim_end (s : string) : string :=
  match s with
  | String c r =>
      match trim_end r with
      | EmptyString => if is_white c then EmptyString else String c EmptyString
      | r' => String c r'
      end
  | EmptyString => EmptyString
  end.

(** [s.trim()] *)
Definition trim (s : string) : string := trim_end (trim_start s).

(** Decimal rendering of an integer, as [Number.prototype.toString] and
    template literals print integers (exact for safe integers). *)
Definition show_Z (z : Z) : string := NilZero.string_of_int (Z.to_int z).

(** *** Digits *)

Definition digit_val (c : ascii) : option Z :=
  let n := nat_of_ascii c in
  if (Nat.leb 48 n && Nat.leb n 57)%bool then Some (Z.of_nat (n - 48)) else None.

(** A digit of radix 16: [0-9], [a-f], [A-F]. *)
Definition hex_val (c : ascii) : option Z :=
  let n := nat_of_ascii c in
  if (Nat.leb 48 n && Nat.leb n 57)%bool then Some (Z.of_nat (n - 48))
  else if (Nat.leb 97 n && Nat.leb n 102)%bool then Some (Z.of_nat (n - 87))
  else if (Nat.leb 65 n && Nat.leb n 70)%bool then Some (Z.of_nat (n - 55))
  else None.

(** The longest prefix of digits of [s] under [val], most significant
    first, and the rest of the string. *)
Fixpoint span_digits (val : ascii -> option Z) (s : string) : list Z * string :=
  match s with
  | String c r =>
      match val c with
      | Some d => let '(ds, rest) := span_digits val r in (d :: ds, rest)
      | None => ([], s)
      end
  | EmptyString => ([], EmptyString)
  end.

(** The number a digit list denotes in a radix. *)
Definition digits_value (radix : Z) (ds : list Z) : Z :=
  fold_left (fun acc d => (acc * radix + d)%Z) ds 0%Z.

(** A leading sign: [(negative, rest)]. *)
Definition split_sign (s : string) : bool * string :=
  match s with
  | String "-" r => (true, r)
  | String "+" r => (false, r)
  | _ => (false, s)
  end.

(** *** parseInt *)

(** The result of [parseInt]: [NaN], or an integer.  The integer is kept
    exact.  JavaScript holds the double nearest to it: the same number up to
    2^53 in absolute value, and beyond that a number of the same sign, not
    zero, that prints as [number_to_string] prints the integer. *)
Inductive int_result : Type :=
| NaN
| Int (z : Z).

(** [parseInt(s)] with no radix argument: leading white space is skipped, a
    sign is read, a [0x]/[0X] prefix selects radix 16, and the longest run of
    digits is converted; without any digit the result is [NaN]. *)
Definition parseInt (s : string) : int_result :=
  let '(neg, s1) := split_sign (trim_start s) in
  let '(radix, val, s2) :=
    match s1 with
    | String "0" (String "x" r) => (16%Z, hex_val, r)
    | String "0" (String "X" r) => (16%Z, hex_val, r)
    | _ => (10%Z, digit_val, s1)
    end in
  match span_digits val s2 with
  | ([], _) => NaN
  | (ds, _) => let v := digits_value radix ds in Int (if neg then (- v)%Z else v)
  end.

(** [n || d] on the result of [parseInt]: [NaN] and zero are falsy. *)
Definition int_or_else (n : int_result) (d : Z) : Z :=
  match n with
  | NaN => d
  | Int z => if (z =? 0)%Z then d else z
  end.

(** *** Binary64 numbers, parseFloat and toFixed *)

(** A Number: [NaN], an infinity, or the finite value
    [(-1)^neg * m * 2^e] with [0 <= m < 2^53] and [-1074 <= e <= 971]. *)
Inductive double : Type :=
| DNaN
| DInf (neg : bool)
| DFin (neg : bool) (m : Z) (e : Z).

(** *** Parsed JSON *)

(** A value [JSON.parse] returns. *)
#[warnings="-register-all"]
Inductive Json : Type :=
| JNull
| JBool (b : bool)
| JNumber (x : double)
| JString (s : string)
| JArray (items : list Json)
| JObject (members : gmap string Json).

(** A state variable of type [T | null] holds [None] for [null]. *)
Definition nullable (v : Json) : option Json :=
  match v with
  | JNull => None
  | _ => Some v
  end.

(** [ToBoolean]: [null], [false], zero, [NaN] and the empty string are
    falsy; every array and every object is truthy. *)
Definition truthy_json (v : Json) : bool :=
  match v with
  | JNull => false
  | JBool b => b
  | JNumber DNaN => false
  | JNumber (DInf _) => true
  | JNumber (DFin _ m _) => negb (m =? 0)%Z
  | JString s => truthy_string s
  | JArray _ => true
  | JObject _ => true
  end.

(** [v.length === 0] on a value other than [null]: the number of items of
    an array, the number of code units of a string, the own property
    [length] of an object; a number or a boolean has no such property and
    [undefined === 0] is false. *)
Definition length_is_zero (v : Json) : bool :=
  match v with
  | JArray items => Nat.eqb (length items) 0
  | JString s => Nat.eqb (String.length s) 0
  | JObject members =>
      match members !! "length" with
      | Some (JNumber (DFin _ m _)) => (m =? 0)%Z
      | _ => false
      end
  | _ => false
  end.

Local Open Scope Z_scope.

(** The integer nearest to [a / b], ties to the even one ([0 <= a], [0 < b]). *)
Definition div_round_even (a b : Z) : Z :=
  let q := a / b in
  match Z.compare (2 * (a mod b)) b with
  | Lt => q
  | Gt => q + 1
  | Eq => if Z.even q then q else q + 1
  end.

(** The integer nearest to [a / b], ties upwards ([0 <= a], [0 < b]). *)
Definition div_round_half_up (a b : Z) : Z := (2 * a + b) / (2 * b).

(** Numerator and denominator of [(p / q) / 2^e]. *)
Definition scale2 (p q e : Z) : Z * Z :=
  if 0 <=? e then (p, q * 2 ^ e) else (p * 2 ^ (- e), q).

(** [floor (log2 (p / q))] for positive [p] and [q]. *)
Definition floor_log2_ratio (p q : Z) : Z :=
  let l := Z.log2 p - Z.log2 q in
  let '(a, b) := scale2 p q l in
  if b <=? a then l else l - 1.

(** Round-to-nearest-even of the non-negative rational [p / q] to binary64:
    [Some (m, e)] for the finite value [m * 2^e], [None] on overflow. *)
Definition round_binary64 (p q : Z) : option (Z * Z) :=
  if p =? 0 then Some (0, -1074)
  else
    let e := Z.max (floor_log2_ratio p q - 52) (-1074) in
    let '(a, b) := scale2 p q e in
    let m := div_round_even a b in
    let '(m, e) := if m =? 2 ^ 53 then (2 ^ 52, e + 1) else (m, e) in
    if 971 <? e then None else Some (m, e).

(** The exact value of a decimal literal, [(-1)^neg * num / den]. *)
Record literal : Type := Literal {
  lit_neg : bool;
  lit_num : Z;
  lit_den : Z
}.

(** What [parseFloat] reads off the front of a string. *)
Inductive float_prefix : Type :=
| NoNumber
| InfinityLiteral (neg : bool)
| DecimalLiteral (v : literal).

Definition starts_with (p s : string) : bool := String.prefix p s.

(** An exponent part [e|E [+|-] digits] at the front of [s], or 0. *)
Definition exponent_part (s : string) : Z :=
  match s with
  | String c r =>
      if (Ascii.eqb c "e" || Ascii.eqb c "E")%bool then
        let '(neg, r1) := split_sign r in
        match span_digits digit_val r1 with
        | ([], _) => 0
        | (ds, _) => let v := digits_value 10 ds in if neg then - v else v
        end
      else 0
  | EmptyString => 0
  end.

(** The longest prefix of the trimmed string that is a [StrDecimalLiteral]:
    a sign, then [Infinity], or digits with an optional fraction and
    exponent. *)
Definition read_float_prefix (s : string) : float_prefix :=
  let '(neg, s1) := split_sign (trim_start s) in
  if starts_with "Infinity" s1 then InfinityLiteral neg
  else
    let '(ip, s2) := span_digits digit_val s1 in
    let '(fp, s3) :=
      match s2 with
      | String "." r => span_digits digit_val r
      | _ => ([], s2)
      end in
    match (ip ++ fp)%list with
    | [] => NoNumber
    | ds =>
        let x := exponent_part s3 - Z.of_nat (length fp) in
        let n := digits_value 10 ds in
        DecimalLiteral
          (if 0 <=? x then Literal neg (n * 10 ^ x) 1
           else Literal neg n (10 ^ (- x)))
    end.

(** [parseFloat(s)]: the literal's value rounded to binary64. *)
Definition parseFloat (s : string) : double :=
  match read_float_prefix s with
  | NoNumber => DNaN
  | InfinityLiteral neg => DInf neg
  | DecimalLiteral v =>
      match round_binary64 (lit_num v) (lit_den v) with
      | Some (m, e) => DFin (lit_neg v) m e
      | None => DInf (lit_neg v)
      end
  end.

(** The exact value of a finite double as a literal. *)
Definition double_value (neg : bool) (m e : Z) : literal :=
  let '(a, b) := scale2 m 1 (- e) in Literal neg a b.

Fixpoint zeros (n : nat) : string :=
  match n with
  | O => EmptyString
  | S k => String "0" (zeros k)
  end.

(** Steps 8 and 10 of [Number.prototype.toFixed] for two fraction digits on
    an exact value below 10^21: the integer [n] with [n / 100] nearest to
    the value (the larger on a tie), printed with a point before its last two
    digits, after a minus sign when the value is negative. *)
Definition fixed2 (v : literal) : string :=
  let n := div_round_half_up (100 * lit_num v) (lit_den v) in
  let ds := show_Z n in
  let ds := (zeros (3 - String.length ds)%nat ++ ds)%string in
  let k := String.length ds in
  ((if (lit_neg v && negb (lit_num v =? 0)%Z)%bool then "-" else "")
     ++ substring 0 (k - 2)%nat ds ++ "." ++ substring (k - 2)%nat 2 ds)%string.

(** *** Number::toString on whole numbers *)

(** The number of decimal digits of a positive integer. *)
Definition decimal_digits (v : Z) : Z := Z.of_nat (String.length (show_Z v)).

(** Whether binary64 rounds the non-negative integers [a] and [b] to the
    same double. *)
Definition same_double (a b : Z) : bool :=
  bool_decide (round_binary64 a 1 = round_binary64 b 1).

(** The search of [Number::toString] for the digits to print, on a positive
    integer [v] of [n] decimal digits: the first [k], counting up, for which
    a multiple of [10^(n-k)] next to [v] rounds to the same double as [v];
    of the two neighbours the one closer to [v], and on a tie the one whose
    last digit is even.  The result is [s * 10^(n-k)] of the standard, the
    digits [s] with their zeros written out. *)
Fixpoint shortest_from (fuel : nat) (k n v : Z) : Z :=
  match fuel with
  | O => v
  | S fuel' =>
      let p := 10 ^ (n - k) in
      let lo := v / p * p in
      let hi := lo + p in
      match same_double lo v, same_double hi v with
      | true, true =>
          match Z.compare (v - lo) (hi - v) with
          | Lt => lo
          | Gt => hi
          | Eq => if Z.even (v / p) then lo else hi
          end
      | true, false => lo
      | false, true => hi
      | false, false => shortest_from fuel' (k + 1) n v
      end
  end.

(** Seventeen digits always identify a double. *)
Definition shortest (v : Z) : Z := shortest_from 17 1 (decimal_digits v) v.

(** Drops the zeros at the end of a digit string. *)
Fixpoint strip_zeros (s : string) : string :=
  match s with
  | String c r =>
      match strip_zeros r with
      | EmptyString => if Ascii.eqb c "0" then EmptyString else String c EmptyString
      | r' => String c r'
      end
  | EmptyString => EmptyString
  end.

(** Exponent notation of a positive integer: its first digit, the digits up
    to the last one that is not zero after a point, and the exponent. *)
Definition exponential (c : Z) : string :=
  let ds := show_Z c in
  let x := show_Z (Z.of_nat (String.length ds - 1)) in
  match strip_zeros ds with
  | String d EmptyString => (String d EmptyString ++ "e+" ++ x)%string
  | String d r => (String d EmptyString ++ "." ++ r ++ "e+" ++ x)%string
  | EmptyString => EmptyString
  end.

(** [Number::toString] (radix 10) of a double whose value is the whole
    number [v >= 0]: the shortest digits that read back as the same double,
    written out in full below 10^21 and in exponent notation from there on.
    Up to 2^53 these are the digits of [v] itself. *)
Definition whole_to_string (v : Z) : string :=
  if v =? 0 then "0"%string
  else
    let c := shortest v in
    if c <? 10 ^ 21 then show_Z c else exponential c.

(** [Number::toString] of the double nearest to the integer [z], as a
    number held in an integer prints; [None] when that double is an
    infinity. *)
Definition number_to_string (z : Z) : option string :=
  match round_binary64 (Z.abs z) 1 with
  | Some (m, e) =>
      let v := if 0 <=? e then m * 2 ^ e else m / 2 ^ (- e) in
      Some ((if (z <? 0)%Z then "-" else "") ++ whole_to_string v)%string
  | None => None
  end.

(** [x.toFixed(2)]: from 10^21 on the method returns [ToString(x)] behind
    the sign (a double that large is a whole number); below, two fraction
    digits.  The result is a string in every case. *)
Definition toFixed2 (x : double) : option string :=
  match x with
  | DNaN => Some "NaN"%string
  | DInf neg => Some (if neg then "-Infinity" else "Infinity")%string
  | DFin neg m e =>
      let v := double_value neg m e in
      if 10 ^ 21 * lit_den v <=? lit_num v then
        Some ((if neg then "-" else "") ++ whole_to_string (lit_num v / lit_den v))%string
      else Some (fixed2 v)
  end.

(** The same two-digit rendering computed on the decimal literal itself,
    with no binary rounding in between. *)
Definition toFixed2_exact (s : string) : option string :=
  match read_float_prefix s with
  | NoNumber => Some "NaN"%string
  | InfinityLiteral neg => Some (if neg then "-Infinity" else "Infinity")%string
  | DecimalLiteral v =>
      if 10 ^ 21 * lit_den v <=? lit_num v then None else Some (fixed2 v)
  end.

End Js.

(** ** The data model of the query interface

    The records of the engine are declared on the server, which is not part
    of the client sources; they are modelled from section 3 of the design
    document.  [ResponseBody] is the client's view of a response. *)

Module Data.

(** Modelled from the spec: a fixed-point decimal amount, counted in
    hundredths (the stored precision of the documented amounts). *)
Definition decimal : Type := Z.

(** Modelled from the spec: a calendar month [YYYY-MM]. *)
Record Month : Type := mkMonth {
  m_year : Z;
  m_month : Z
}.

(** Modelled from the spec: a calendar date. *)
Record Date : Type := mkDate {
  d_year : Z;
  d_month : Z;
  d_day : Z
}.

(** Modelled from the spec: the direction of a transaction. *)
Inductive Kind : Type :=
| expense
| income.

(** Modelled from the spec: the immutable Transaction record. *)
Record Transaction : Type := mkTransaction {
  date : Date;
  amount : decimal;
  kind : Kind;
  merchant : string;
  description : string;
  category : string;
  source : string
}.

(** Modelled from the spec: the Filter value object; every field is
    optional. *)
Record Filter : Type := mkFilter {
  f_month : option Month;
  f_category : option string;
  f_merchant : option string;
  f_source : option string;
  f_kind : option Kind
}.

(** Modelled from the spec: the closed set of intents. *)
Inductive IntentTag : Type :=
| monthly_summary
| category_total
| merchant_total
| source_total
| clarification_needed.

(** Modelled from the spec: the Trace, the structured audit record of one
    answer. *)
Record Trace : Type := mkTrace {
  intent : IntentTag;
  resolved_month : option Month;
  filters_used : Filter;
  called_functions : list string;
  evidence_count_returned : nat
}.

(** The body of a [/query] response as the client reads it after
    [response.json()]: the two optional strings, the numbers as pairs of a key
    and the printed value, the evidence rows as objects with string-valued
    properties, and the trace.  A missing or [null] property is [None].  The
    record stands for a body that is an object; a body that is the bare value
    [null] has no properties to read and is not covered. *)
Record ResponseBody : Type := mkResponseBody {
  final_answer : option string;
  clarifying_question : option string;
  numbers : option (list (string * string));
  evidence : option (list (gmap string string));
  trace : option Trace
}.

#[global] Instance Month_eq_dec : EqDecision Month.
Proof. solve_decision. Defined.

#[global] Instance Kind_eq_dec : EqDecision Kind.
Proof. solve_decision. Defined.

End Data.

(** ** Asynchronous programs

    An [async] function is a tree: it returns, throws, queues a functional
    React state update, reads the clock, or awaits a [fetch] and continues
    with its outcome.  The outcome of a [fetch] carries what the body
    promises of the response settle to, so a handler is suspended once per
    request. *)

Module Async.

Local Open Scope string_scope.

(** A thrown value: an [Error] instance with its message, or anything
    else. *)
Inductive Thrown : Type :=
| ErrorObj (message : string)
| NonError.

(** A [File] picked in a file input. *)
Record File : Type := mkFile {
  file_name : string;
  file_content : string
}.

(** The [body] of a request: none, a string, or form data. *)
Inductive Body : Type :=
| NoBody
| TextBody (text : string)
| FormBody (fields : list (string * File)).

(** The arguments of one [fetch] call. *)
Record Request : Type := mkRequest {
  req_url : string;
  req_method : string;
  req_headers : list (string * string);
  req_body : Body
}.

(** A [Response] object of the Fetch API, with what its [text()] and
    [json()] promises settle to. *)
Record HttpResponse (J : Type) : Type := mkHttpResponse {
  ok : bool;
  status : Z;
  statusText : string;
  text : Thrown + string;
  json : Thrown + J
}.

Arguments mkHttpResponse {J} _ _ _ _ _.
Arguments ok {J} _.
Arguments status {J} _.
Arguments statusText {J} _.
Arguments text {J} _.
Arguments json {J} _.

(** What the promise of a [fetch] settles to. *)
Inductive FetchOutcome (J : Type) : Type :=
| Rejected (t : Thrown)
| Resolved (r : HttpResponse J).

Arguments Rejected {J} _.
Arguments Resolved {J} _.

(** Programs over a component state [St] that fetch bodies of type [J] and
    return an [A]. *)
Inductive Prog (St J A : Type) : Type :=
| Ret (a : A)
| Throw (t : Thrown)
| Update (f : St -> St) (k : Prog St J A)
| Clock (k : Z -> Prog St J A)
| Await (req : Request) (k : FetchOutcome J -> Prog St J A).

Arguments Ret {St J A} _.
Arguments Throw {St J A} _.
Arguments Update {St J A} _ _.
Arguments Clock {St J A} _.
Arguments Await {St J A} _ _.

(** Sequencing: [f] runs on the value [p] returns. *)
Fixpoint bind {St J A B} (p : Prog St J A) (f : A -> Prog St J B) : Prog St J B :=
  match p with
  | Ret a => f a
  | Throw t => Throw t
  | Update g k => Update g (bind k f)
  | Clock k => Clock (fun now => bind (k now) f)
  | Await req k => Await req (fun o => bind (k o) f)
  end.

#[global] Instance Prog_ret {St J} : MRet (Prog St J) := fun A a => Ret a.
#[global] Instance Prog_bind {St J} : MBind (Prog St J) := fun A B f p => bind p f.

(** [try { p } catch (e) { h e }] *)
Fixpoint try_catch {St J A} (p : Prog St J A) (h : Thrown -> Prog St J A) : Prog St J A :=
  match p with
  | Ret a => Ret a
  | Throw t => h t
  | Update g k => Update g (try_catch k h)
  | Clock k => Clock (fun now => try_catch (k now) h)
  | Await req k => Await req (fun o => try_catch (k o) h)
  end.

(** [try { p } finally { fin }]: [fin] runs on both exits and the exit of
    [p] is kept (a throw in [fin] replaces it). *)
Fixpoint try_finally {St J A} (p : Prog St J A) (fin : Prog St J unit) : Prog St J A :=
  match p with
  | Ret a => bind fin (fun _ => Ret a)
  | Throw t => bind fin (fun _ => Throw t)
  | Update g k => Update g (try_finally k fin)
  | Clock k => Clock (fun now => try_finally (k now) fin)
  | Await req k => Await req (fun o => try_finally (k o) fin)
  end.

(** A settled promise, awaited. *)
Definition settled {St J A} (r : Thrown + A) : Prog St J A :=
  match r with
  | inl t => Throw t
  | inr a => Ret a
  end.

(** [await fetch(url, init)] *)
Definition fetch {St J} (req : Request) : Prog St J (HttpResponse J) :=
  Await req (fun o =>
    match o with
    | Rejected t => Throw t
    | Resolved r => Ret r
    end).

(** A state setter called with an updater function. *)
Definition set {St J} (f : St -> St) : Prog St J unit := Update f (Ret tt).

(** [Date.now()] *)
Definition now {St J} : Prog St J Z := Clock Ret.

(** *** Running a program up to its next await *)

(** Where a run stops: at the end, or at an await. *)
Inductive Status (St J A : Type) : Type :=
| Done (r : Thrown + A)
| Waiting (req : Request) (k : FetchOutcome J -> Prog St J A).

Arguments Done {St J A} _.
Arguments Waiting {St J A} _ _.

(** Runs the synchronous part of [p]: state updates are applied in order and
    every clock read within the run returns [t]. *)
Fixpoint run {St J A} (t : Z) (p : Prog St J A) (s : St) : St * Status St J A :=
  match p with
  | Ret a => (s, Done (inr a))
  | Throw e => (s, Done (inl e))
  | Update f k => run t k (f s)
  | Clock k => run t (k t) s
  | Await req k => (s, Waiting req k)
  end.

(** Runs [p] to completion against a network that answers every request at
    once: the requests issued, oldest first, the final state and the
    result. *)
Fixpoint exec {St J A} (net : Request -> FetchOutcome J) (t : Z)
    (p : Prog St J A) (s : St) : list Request * St * (Thrown + A) :=
  match p with
  | Ret a => ([], s, inr a)
  | Throw e => ([], s, inl e)
  | Update f k => exec net t k (f s)
  | Clock k => exec net t (k t) s
  | Await req k =>
      let '(reqs, s', r) := exec net t (k (net req)) s in
      (req :: reqs, s', r)
  end.

End Async.

(** ** [web/src/lib/api.ts] *)

Module Api.

Import Js Data Async.
Local Open Scope string_scope.

(** [process.env.NEXT_PUBLIC_API_BASE_URL ?? "http://127.0.0.1:8000"] *)
Definition API_BASE (env : option string) : string :=
  nullish_else env "http://127.0.0.1:8000".

(** The payload of a query. *)
Record Payload : Type := mkPayload {
  question : string;
  month : option string;
  limit_evidence : option Z
}.

Definition dquote : string := String (ascii_of_nat 34) EmptyString.

Definition hex_digit (n : nat) : ascii :=
  ascii_of_nat (if Nat.ltb n 10 then 48 + n else 87 + n).

(** One code unit inside a JSON string ([QuoteJSONString]). *)
Definition quote_char (c : ascii) : string :=
  let n := nat_of_ascii c in
  if Nat.eqb n 34 then "\" ++ dquote
  else if Nat.eqb n 92 then "\\"
  else if Nat.eqb n 8 then "\b"
  else if Nat.eqb n 9 then "\t"
  else if Nat.eqb n 10 then "\n"
  else if Nat.eqb n 12 then "\f"
  else if Nat.eqb n 13 then "\r"
  else if Nat.ltb n 32 then
    "\u00" ++ String (hex_digit (n / 16)) (String (hex_digit (n mod 16)) EmptyString)
  else String c EmptyString.

Fixpoint quote_chars (s : string) : string :=
  match s with
  | String c r => quote_char c ++ quote_chars r
  | EmptyString => EmptyString
  end.

Definition quote (s : string) : string := dquote ++ quote_chars s ++ dquote.

(** [JSON.stringify(payload)]: the properties that are present, in the order
    they were created.  A finite number is serialized by [Number::toString],
    an infinite one as [null]. *)
Definition JSON_stringify (p : Payload) : string :=
  "{" ++ quote "question" ++ ":" ++ quote (question p)
    ++ match month p with
       | Some m => "," ++ quote "month" ++ ":" ++ quote m
       | None => ""
       end
    ++ match limit_evidence p with
       | Some n =>
           "," ++ quote "limit_evidence" ++ ":"
             ++ match number_to_string n with
                | Some digits => digits
                | None => "null"
                end
       | None => ""
       end
    ++ "}".

Section Api.

Context {St J : Type}.
Variable env : option string.

Definition health_request : Request :=
  {| req_url := API_BASE env ++ "/health";
     req_method := "GET";
     req_headers := [("Content-Type", "application/json")];
     req_body := NoBody |}.

Definition ingest_request (file : File) : Request :=
  {| req_url := API_BASE env ++ "/ingest?replace=true";
     req_method := "POST";
     req_headers := [];
     req_body := FormBody [("file", file)] |}.

Definition query_request (payload : Payload) : Request :=
  {| req_url := API_BASE env ++ "/query";
     req_method := "POST";
     req_headers := [("Content-Type", "application/json")];
     req_body := TextBody (JSON_stringify payload) |}.

(** [await response.text().catch(() => "Unknown error")] *)
Definition error_text (response : HttpResponse J) : Prog St J string :=
  try_catch (settled (text response)) (fun _ => mret "Unknown error").

(** The message of the error thrown on a response that is not ok. *)
Definition failure_message (what : string) (response : HttpResponse J) (errorText : string) : string :=
  what ++ ": " ++ show_Z (status response) ++ " " ++ statusText response ++ " - " ++ errorText.

Definition healthCheck : Prog St J J :=
  response ← fetch health_request;
  if negb (ok response) then
    errorText ← error_text response;
    Throw (ErrorObj (failure_message "Health check failed" response errorText))
  else settled (json response).

Definition ingestCsv (file : File) : Prog St J J :=
  response ← fetch (ingest_request file);
  if negb (ok response) then
    errorText ← error_text response;
    Throw (ErrorObj (failure_message "CSV ingestion failed" response errorText))
  else settled (json response).

Definition queryFinance (payload : Payload) : Prog St J J :=
  response ← fetch (query_request payload);
  if negb (ok response) then
    errorText ← error_text response;
    Throw (ErrorObj (failure_message "Query failed" response errorText))
  else settled (json response).

End Api.

End Api.

(** ** The chat page ([web/app/chat/page.tsx])

    The page is embedded in its later revision, which adds the active-CSV bar
    and the preview modal; [handleSend] and [AssistantMessage] are the same in
    both revisions. *)

Module Chat.

Import Js Data Async.
Local Open Scope string_scope.

Inductive Role : Type :=
| user
| assistant.

Record Message : Type := mkMessage {
  id : string;
  role : Role;
  content : string;
  data : option ResponseBody
}.

(** The component state, one field per [useState]. *)
Record Page : Type := mkPage {
  messages : list Message;
  input : string;
  month : string;
  limitEvidence : Z;
  isLoading : bool;
  csvName : option string;
  csvPreview : option Json;
  showPreviewModal : bool
}.

(** The initial values passed to [useState]. *)
Definition initial : Page :=
  {| messages := [];
     input := "";
     month := "";
     limitEvidence := 20;
     isLoading := false;
     csvName := None;
     csvPreview := None;
     showPreviewModal := false |}.

(** The state setters.  [setMessages] is always called with an updater
    function, the others with a value. *)
Definition setMessages (f : list Message -> list Message) (s : Page) : Page :=
  mkPage (f (messages s)) (input s) (month s) (limitEvidence s) (isLoading s)
    (csvName s) (csvPreview s) (showPreviewModal s).

Definition setInput (v : string) (s : Page) : Page :=
  mkPage (messages s) v (month s) (limitEvidence s) (isLoading s)
    (csvName s) (csvPreview s) (showPreviewModal s).

Definition setMonth (v : string) (s : Page) : Page :=
  mkPage (messages s) (input s) v (limitEvidence s) (isLoading s)
    (csvName s) (csvPreview s) (showPreviewModal s).

Definition setLimitEvidence (v : Z) (s : Page) : Page :=
  mkPage (messages s) (input s) (month s) v (isLoading s)
    (csvName s) (csvPreview s) (showPreviewModal s).

Definition setIsLoading (v : bool) (s : Page) : Page :=
  mkPage (messages s) (input s) (month s) (limitEvidence s) v
    (csvName s) (csvPreview s) (showPreviewModal s).

Definition setCsvName (v : option string) (s : Page) : Page :=
  mkPage (messages s) (input s) (month s) (limitEvidence s) (isLoading s)
    v (csvPreview s) (showPreviewModal s).

Definition setCsvPreview (v : option Json) (s : Page) : Page :=
  mkPage (messages s) (input s) (month s) (limitEvidence s) (isLoading s)
    (csvName s) v (showPreviewModal s).

Definition setShowPreviewModal (v : bool) (s : Page) : Page :=
  mkPage (messages s) (input s) (month s) (limitEvidence s) (isLoading s)
    (csvName s) (csvPreview s) v.

(** The payload [handleSend] builds from the state it closes over. *)
Definition build_payload (s : Page) : Api.Payload :=
  {| Api.question := input s;
     Api.month :=
       if truthy_string (trim (month s)) then Some (trim (month s)) else None;
     Api.limit_evidence :=
       if (0 <? limitEvidence s)%Z then Some (limitEvidence s) else None |}.

(** [response.final_answer || response.clarifying_question || "No response"] *)
Definition answer_content (response : ResponseBody) : string :=
  or_else (final_answer response)
    (or_else (clarifying_question response) "No response").

(** [`Error: ${error instanceof Error ? error.message : "Failed to get response"}`] *)
Definition error_content (error : Thrown) : string :=
  "Error: " ++
  match error with
  | ErrorObj message => message
  | NonError => "Failed to get response"
  end.

Section Handlers.

(** The value of [NEXT_PUBLIC_API_BASE_URL] and the platform's [JSON.parse]
    on a stored preview: the parsed value, whatever kind of value the text
    denotes, or [None] when it throws. *)
Variable env : option string.
Variable JSON_parse : string -> option Json.

Local Abbreviation Handler := (Prog Page ResponseBody unit).

(** The mount effect: reads the CSV name and preview from [localStorage]. *)
Definition onMount (localStorage : gmap string string) : Handler :=
  let name := localStorage !! "pfa_csv_name" in
  let previewStr := localStorage !! "pfa_csv_preview" in
  set (setCsvName name);;
  match previewStr with
  | Some str =>
      if truthy_string str then
        try_catch
          (parsed ← match JSON_parse str with
                    | Some v => Ret v
                    | None => Throw (ErrorObj "SyntaxError")
                    end;
           set (setCsvPreview (nullable parsed)))
          (fun e => set (setCsvPreview None))
      else mret tt
  | None => mret tt
  end.

(** [handleSend], called from a render whose state is [s]. *)
Definition handleSend (s : Page) : Handler :=
  if (negb (truthy_string (trim (input s))) || isLoading s)%bool then mret tt
  else
    t ← now;
    let userMessage := mkMessage (show_Z t) user (input s) None in
    set (setMessages (fun prev => (prev ++ [userMessage])%list));;
    set (setInput "");;
    set (setIsLoading true);;
    try_finally
      (try_catch
         (let payload := build_payload s in
          response ← Api.queryFinance env payload;
          t' ← now;
          let assistantMessage :=
            mkMessage (show_Z (t' + 1)) assistant (answer_content response) (Some response) in
          set (setMessages (fun prev => (prev ++ [assistantMessage])%list)))
         (fun error =>
            t' ← now;
            let errorMessage :=
              mkMessage (show_Z (t' + 1)) assistant (error_content error) None in
            set (setMessages (fun prev => (prev ++ [errorMessage])%list))))
      (set (setIsLoading false)).

(** [handleKeyPress]: Enter without Shift sends. *)
Definition handleKeyPress (key : string) (shiftKey : bool) (s : Page) : Handler :=
  if (String.eqb key "Enter" && negb shiftKey)%bool then handleSend s else mret tt.

(** The [onChange] of the evidence-limit field:
    [setLimitEvidence(parseInt(e.target.value) || 20)]. *)
Definition onLimitChange (value : string) : Handler :=
  set (setLimitEvidence (int_or_else (parseInt value) 20)).

(** *** The page as a transition system *)

Inductive Event : Type :=
| ChangeInput (value : string)
| ChangeMonth (value : string)
| ChangeLimit (value : string)
| ClickSend
| KeyPress (key : string) (shiftKey : bool)
| ClickViewCsv
| CloseModal
| ClickUploadNew
| Settle (i : nat) (o : FetchOutcome ResponseBody).

(** A mounted page: its state, the requests awaiting their response with
    the rest of the handler that issued each, and every request sent so far. *)
Record System : Type := mkSystem {
  page : Page;
  inflight : list (Request * (FetchOutcome ResponseBody -> Handler));
  sent : list Request
}.

(** Runs a handler until it finishes or awaits. *)
Definition launch (t : Z) (h : Handler) (sys : System) : System :=
  match run t h (page sys) with
  | (s', Done _) => mkSystem s' (inflight sys) (sent sys)
  | (s', Waiting req k) =>
      mkSystem s' (inflight sys ++ [(req, k)])%list (sent sys ++ [req])%list
  end.

(** The handler an event runs, given the state of the current render. *)
Definition handler_of (e : Event) (s : Page) : Handler :=
  match e with
  | ChangeInput v => set (setInput v)
  | ChangeMonth v => set (setMonth v)
  | ChangeLimit v => onLimitChange v
  | ClickSend => handleSend s
  | KeyPress key shiftKey => handleKeyPress key shiftKey s
  | ClickViewCsv => set (setShowPreviewModal true)
  | CloseModal => set (setShowPreviewModal false)
  | ClickUploadNew => set (setMessages (fun _ => []))
  | Settle _ _ => mret tt
  end.

(** One event at time [t].  A UI event runs its handler, which closes over
    the state of the latest render (React re-renders after every such event
    before the next one is delivered).  [Settle i o] resumes the [i]-th
    waiting handler with the outcome [o]; it does nothing when there is no
    such handler. *)
Definition step (sys : System) (te : Z * Event) : System :=
  match te with
  | (t, Settle i o) =>
      match inflight sys !! i with
      | Some (_, k) =>
          launch t (k o) (mkSystem (page sys) (delete i (inflight sys)) (sent sys))
      | None => sys
      end
  | (t, e) => launch t (handler_of e (page sys)) sys
  end.

(** The page after mounting with the given [localStorage]. *)
Definition mounted (localStorage : gmap string string) : System :=
  launch 0 (onMount localStorage) (mkSystem initial [] []).

Definition steps (sys : System) (trace : list (Z * Event)) : System :=
  fold_left step trace sys.

End Handlers.

(** *** Rendering *)

(** [disabled={!csvPreview || csvPreview.length === 0}] on the View CSV
    button. *)
Definition view_csv_disabled (s : Page) : bool :=
  match csvPreview s with
  | None => true
  | Some v => (negb (truthy_json v) || length_is_zero v)%bool
  end.

(** [disabled={!input.trim() || isLoading}] on the Send button. *)
Definition send_disabled (s : Page) : bool :=
  (negb (truthy_string (trim (input s))) || isLoading s)%bool.

(** The amount cell: [row.amount ? `$${parseFloat(row.amount).toFixed(2)}` : "-"]. *)
Definition amount_cell (amount : option string) : option string :=
  match amount with
  | Some a =>
      if truthy_string a then (fun t => "$" ++ t) <$> toFixed2 (parseFloat a)
      else Some "-"
  | None => Some "-"
  end.

(** One row of the evidence table: the six cells, left to right. *)
Definition evidence_row (row : gmap string string) : list (option string) :=
  [ Some (or_else (row !! "date") "-");
    Some (or_else (row !! "where") "-");
    Some (or_else (row !! "what") "-");
    amount_cell (row !! "amount");
    Some (or_else (row !! "category") "-");
    Some (or_else (row !! "source") "-") ].

(** The body of the opened evidence section. *)
Inductive EvidenceView : Type :=
| EvidenceTable (header : list string) (rows : list (list (option string)))
| NoEvidenceRows.

Definition evidence_view (d : ResponseBody) : EvidenceView :=
  match evidence d with
  | Some (r :: rs) =>
      EvidenceTable ["Date"; "Where"; "What"; "Amount"; "Category"; "Source"]
        (evidence_row <$> (r :: rs))
  | _ => NoEvidenceRows
  end.

(** What [AssistantMessage] shows for a message: the bare content when the
    message has no data, otherwise the answer paragraph, the clarifying
    paragraph, the evidence counter and (once opened) the evidence section.
    The Numbers and Trace sections of the component are not embedded. *)
Inductive MessageView : Type :=
| PlainContent (text : string)
| RichContent (answer : option string) (clarifying : option string)
    (evidence_rows : nat) (evidence_section : EvidenceView).

(** [v && <p>{v}</p>]: the paragraph is rendered for a non-empty string. *)
Definition shown (v : option string) : option string :=
  match v with
  | Some s => if truthy_string s then Some s else None
  | None => None
  end.

Definition AssistantMessage (message : Message) : MessageView :=
  match data message with
  | None => PlainContent (content message)
  | Some d =>
      RichContent (shown (final_answer d)) (shown (clarifying_question d))
        (match evidence d with Some rows => length rows | None => 0 end)
        (evidence_view d)
  end.

End Chat.

(** ** The upload page ([web/app/upload/page.tsx]) *)

Module Upload.

Import Js Async.
Local Open Scope string_scope.

Inductive UploadState : Type :=
| idle
| loading
| success
| error.

Section Page.

(** The value of [NEXT_PUBLIC_API_BASE_URL] and the type of an ingest
    response body. *)
Variable env : option string.
Variable Result : Type.

(** The component state, one field per [useState].  [result] is [None]
    until [setResult(response)] has run and [Some] of the parsed body from
    then on; the body is whatever JSON value the server sent. *)
Record Page : Type := mkPage {
  file : option File;
  state : UploadState;
  result : option Result;
  error_message : option string
}.

Definition setFile (v : option File) (s : Page) : Page :=
  mkPage v (state s) (result s) (error_message s).

Definition setState (v : UploadState) (s : Page) : Page :=
  mkPage (file s) v (result s) (error_message s).

Definition setResult (v : option Result) (s : Page) : Page :=
  mkPage (file s) (state s) v (error_message s).

Definition setError (v : option string) (s : Page) : Page :=
  mkPage (file s) (state s) (result s) v.

Definition handleFileChange (selectedFile : option File) : Prog Page Result unit :=
  match selectedFile with
  | Some f =>
      set (setFile (Some f));;
      set (setState idle);;
      set (setResult None);;
      set (setError None)
  | None => mret tt
  end.

Definition handleUpload (s : Page) : Prog Page Result unit :=
  match file s with
  | None => set (setError (Some "Please select a file first"))
  | Some f =>
      set (setState loading);;
      set (setError None);;
      set (setResult None);;
      try_catch
        (response ← Api.ingestCsv env f;
         set (setResult (Some response));;
         set (setState success))
        (fun err =>
           set (setError (Some match err with
                               | ErrorObj message => message
                               | NonError => "Failed to upload file"
                               end));;
           set (setState error))
  end.

End Page.

End Upload.

(** ** The query engine

    The engine runs on the server and is not part of the client sources; it
    is modelled here from the design document. *)

Module Engine.

Import Js Data.
Local Open Scope string_scope.

(** Modelled from the spec: the TransactionStore, a read-only table of
    normalized transactions. *)
Definition Store : Type := list Transaction.

(** Modelled from the spec: the calendar month of a date. *)
Definition month_of (d : Date) : Month := mkMonth (d_year d) (d_month d).

(** Modelled from the spec: one field of the filter predicate; an empty
    field accepts every row, a set one asks for exact equality. *)
Definition field_matches {A} `{EqDecision A} (want : option A) (have : A) : bool :=
  match want with
  | None => true
  | Some w => bool_decide (w = have)
  end.

(** Modelled from the spec: the filter predicate of section 4.4, the
    conjunction over every non-empty field, [month] matching the calendar
    month of [date]. *)
Definition matches (f : Filter) (t : Transaction) : bool :=
  (field_matches (f_month f) (month_of (date t))
   && field_matches (f_category f) (category t)
   && field_matches (f_merchant f) (merchant t)
   && field_matches (f_source f) (source t)
   && field_matches (f_kind f) (kind t))%bool.

(** Modelled from the spec: the single filter-application routine shared by
    the metric functions and the evidence selector. *)
Definition apply_filter (store : Store) (f : Filter) : list Transaction :=
  List.filter (matches f) store.

(** Modelled from the spec: exact fixed-point summation of amounts. *)
Definition sum_amounts (rows : list Transaction) : decimal :=
  foldr (fun t acc => (amount t + acc)%Z) 0%Z rows.

(** Modelled from the spec: MetricResult. *)
Record MetricResult : Type := mkMetricResult {
  value : decimal;
  count : nat;
  used : Filter
}.

(** Modelled from the spec: a metric function, filter then aggregate; an
    empty matching set yields value 0 and count 0. *)
Definition total (store : Store) (f : Filter) : MetricResult :=
  let rows := apply_filter store f in
  mkMetricResult (sum_amounts rows) (length rows) f.

(** Modelled from the spec: the order of calendar dates. *)
Definition date_leb (a b : Date) : bool :=
  ((d_year a <? d_year b)
   || ((d_year a =? d_year b)
       && ((d_month a <? d_month b)
           || ((d_month a =? d_month b) && (d_day a <=? d_day b)))))%Z%bool.

(** Modelled from the spec: [a] may stand before [b] when ordering by date,
    most recent first. *)
Definition newer_first (a b : Transaction) : Prop := date_leb (date b) (date a) = true.

#[global] Instance newer_first_dec a b : Decision (newer_first a b).
Proof. unfold newer_first. apply _. Defined.

(** Modelled from the spec: the EvidenceSelector of section 4.5, the rows
    the shared predicate accepts, ordered by date descending, up to [limit]
    ([None]: no limit). *)
Definition select (store : Store) (f : Filter) (limit : option nat) : list Transaction :=
  let rows := merge_sort newer_first (apply_filter store f) in
  match limit with
  | Some n => take n rows
  | None => rows
  end.

(** Modelled from the spec: the entities found in a question, the best
    candidate for each slot. *)
Record Entities : Type := mkEntities {
  e_month : option Month;
  e_category : option string;
  e_merchant : option string;
  e_source : option string
}.

(** Modelled from the spec: an intent carries the entities it was resolved
    with. *)
Record Intent : Type := mkIntent {
  tag : IntentTag;
  entities : Entities
}.

(** Modelled from the spec: the fixed priority table of section 4.2, read
    top-down, first match wins. *)
Definition priority_table : list ((Entities -> bool) * IntentTag) :=
  [ (fun e => bool_decide (is_Some (e_category e)), category_total);
    (fun e => bool_decide (is_Some (e_merchant e)), merchant_total);
    (fun e => bool_decide (is_Some (e_source e)), source_total);
    (fun e => bool_decide (is_Some (e_month e)), monthly_summary) ].

(** Modelled from the spec: the first row of the table whose predicate
    holds; [clarification_needed] when none does. *)
Fixpoint first_match (table : list ((Entities -> bool) * IntentTag)) (e : Entities) : IntentTag :=
  match table with
  | (p, i) :: rest => if p e then i else first_match rest e
  | [] => clarification_needed
  end.

(** Modelled from the spec: the IntentResolver; an explicit month overrides
    the month parsed from the text. *)
Definition resolve_intent (e : Entities) (explicit_month : option Month) : Intent :=
  let e' :=
    match explicit_month with
    | Some m => mkEntities (Some m) (e_category e) (e_merchant e) (e_source e)
    | None => e
    end in
  mkIntent (first_match priority_table e') e'.

(** Modelled from the spec: the pieces of information a question can lack. *)
Inductive Slot : Type :=
| slot_month
| slot_category
| slot_merchant
| slot_source.

(** Modelled from the spec: how a clarifying question names a slot. *)
Definition slot_name (s : Slot) : string :=
  match s with
  | slot_month => "time period"
  | slot_category => "category"
  | slot_merchant => "merchant"
  | slot_source => "source"
  end.

(** Modelled from the spec: the slots an intent needs ([category_total]
    needs both month and category, and so on); with nothing resolvable the
    time period is asked for. *)
Definition required_slots (i : IntentTag) : list Slot :=
  match i with
  | monthly_summary => [slot_month]
  | category_total => [slot_month; slot_category]
  | merchant_total => [slot_month; slot_merchant]
  | source_total => [slot_month; slot_source]
  | clarification_needed => [slot_month]
  end.

(** Modelled from the spec: a slot is filled when its entity was resolved. *)
Definition slot_filled (e : Entities) (s : Slot) : bool :=
  match s with
  | slot_month => bool_decide (is_Some (e_month e))
  | slot_category => bool_decide (is_Some (e_category e))
  | slot_merchant => bool_decide (is_Some (e_merchant e))
  | slot_source => bool_decide (is_Some (e_source e))
  end.

(** Modelled from the spec: the name of the metric function an intent maps
    to. *)
Definition metric_name (i : IntentTag) : option string :=
  match i with
  | monthly_summary => Some "get_monthly_total"
  | category_total => Some "get_category_total"
  | merchant_total => Some "get_merchant_total"
  | source_total => Some "get_source_total"
  | clarification_needed => None
  end.

(** Modelled from the spec: the filter an intent is computed under, the
    month and the one entity the intent is about (a category wins over a
    merchant named beside it); totals are spending totals. *)
Definition filter_of (i : Intent) : Filter :=
  let e := entities i in
  match tag i with
  | category_total => mkFilter (e_month e) (e_category e) None None (Some expense)
  | merchant_total => mkFilter (e_month e) None (e_merchant e) None (Some expense)
  | source_total => mkFilter (e_month e) None None (e_source e) (Some expense)
  | _ => mkFilter (e_month e) None None None (Some expense)
  end.

(** Modelled from the spec: the outcome of the MetricDispatcher. *)
Inductive Dispatch : Type :=
| Dispatched (name : string) (f : Filter)
| ClarificationRequest (missing : list Slot).

(** Modelled from the spec: the MetricDispatcher; dispatches when every
    required slot is filled and reports the missing ones otherwise. *)
Definition dispatch (i : Intent) : Dispatch :=
  match metric_name (tag i), List.filter (fun s => negb (slot_filled (entities i) s)) (required_slots (tag i)) with
  | Some name, [] => Dispatched name (filter_of i)
  | _, missing => ClarificationRequest missing
  end.

(** Modelled from the spec: a number below 100 printed with two digits. *)
Definition pad2 (n : Z) : string :=
  (if (n <? 10)%Z then "0" else "") ++ show_Z n.

(** Modelled from the spec: a decimal printed with its two fraction
    digits. *)
Definition show_decimal (d : decimal) : string :=
  (if (d <? 0)%Z then "-" else "")
    ++ show_Z (Z.abs d / 100) ++ "." ++ pad2 (Z.abs d mod 100).

(** Modelled from the spec: a month printed as [YYYY-MM]. *)
Definition show_month (m : Month) : string :=
  show_Z (m_year m) ++ "-" ++ pad2 (m_month m).

(** Modelled from the spec: a date printed as [YYYY-MM-DD]. *)
Definition show_date (d : Date) : string :=
  show_Z (d_year d) ++ "-" ++ pad2 (d_month d) ++ "-" ++ pad2 (d_day d).

(** Modelled from the spec: the Response of section 3. *)
Record Response : Type := mkResponse {
  r_final_answer : option string;
  r_clarifying_question : option string;
  r_numbers : gmap string decimal;
  r_evidence : list Transaction;
  r_trace : Trace
}.

(** Modelled from the spec: the names of the missing slots, separated. *)
Fixpoint join (sep : string) (l : list string) : string :=
  match l with
  | [] => ""
  | [x] => x
  | x :: rest => x ++ sep ++ join sep rest
  end.

(** Modelled from the spec: the clarifying question names exactly the
    missing information. *)
Definition clarifying_text (missing : list Slot) : string :=
  "Please specify the " ++ join ", " (slot_name <$> missing) ++ ".".

(** Modelled from the spec: the templated sentence, composed from the
    computed value and count, the month and the entity name. *)
Definition answer_text (f : Filter) (r : MetricResult) : string :=
  "You spent $" ++ show_decimal (value r)
    ++ match f_category f, f_merchant f, f_source f with
       | Some c, _, _ => " on " ++ c
       | None, Some m, _ => " at " ++ m
       | None, None, Some s => " from " ++ s
       | None, None, None => ""
       end
    ++ match f_month f with
       | Some m => " in " ++ show_month m
       | None => ""
       end
    ++ " across " ++ show_Z (Z.of_nat (count r)) ++ " transactions.".

(** Modelled from the spec: the filter with every field empty. *)
Definition empty_filter : Filter := mkFilter None None None None None.

Section Engine.

(** The EntityResolver, scanning a question against the vocabulary of the
    store; the design document leaves its matching rules open, so it is a
    parameter of the pipeline. *)
Variable resolve_entities : string -> Store -> Entities.

(** Modelled from the spec: the pipeline of section 4 for one request,
    Received to Answered or ClarificationRequested.  A missing
    [limit_evidence] is 20; [None] for [limit] lifts the limit and is used
    to speak about the full evidence set. *)
Definition answer (store : Store) (question : string) (month : option Month)
    (limit : option nat) : Response :=
  let i := resolve_intent (resolve_entities question store) month in
  match dispatch i with
  | ClarificationRequest missing =>
      mkResponse None (Some (clarifying_text missing)) ∅ []
        (mkTrace (tag i) (e_month (entities i)) empty_filter ["dispatch"] 0)
  | Dispatched name f =>
      let r := total store f in
      let ev := select store f limit in
      mkResponse (Some (answer_text f r)) None
        (<["total" := value r]> (<["count" := (100 * Z.of_nat (count r))%Z]> ∅)) ev
        (mkTrace (tag i) (f_month f) (used r) ["dispatch"; name; "select_evidence"] (length ev))
  end.

(** Modelled from the spec: the one operation of the query interface. *)
Definition query (store : Store) (question : string) (month : option Month)
    (limit_evidence : option positive) : Response :=
  answer store question month
    (Some match limit_evidence with
          | Some n => Pos.to_nat n
          | None => 20
          end).

End Engine.

(** Modelled from the spec: an evidence row as the interface exposes it. *)
Definition row_of (t : Transaction) : gmap string string :=
  <["date" := show_date (date t)]>
  (<["where" := merchant t]>
  (<["what" := description t]>
  (<["amount" := show_decimal (amount t)]>
  (<["category" := category t]>
  (<["source" := source t]> ∅))))).

(** Modelled from the spec: the response as the client receives it. *)
Definition to_body (r : Response) : ResponseBody :=
  mkResponseBody (r_final_answer r) (r_clarifying_question r)
    (Some (prod_map id show_decimal <$> map_to_list (r_numbers r)))
    (Some (row_of <$> r_evidence r))
    (Some (r_trace r)).

End Engine.

(** ** Handlers in flight

    A component with its suspended handlers: the scheduler behind the home
    page and the upload page (the chat page has its own, [Chat.System]). *)

Module Sched.

Import Async.

Section Pool.

Context {St J : Type}.

(** The component state, the handlers waiting for a response (each with
    the request it issued) and every request issued so far. *)
Record Pool : Type := mkPool {
  state : St;
  waiting : list (Request * (FetchOutcome J -> Prog St J unit));
  log : list Request
}.

(** Runs a handler until it finishes or awaits. *)
Definition start (t : Z) (h : Prog St J unit) (p : Pool) : Pool :=
  match run t h (state p) with
  | (s', Done _) => mkPool s' (waiting p) (log p)
  | (s', Waiting req k) => mkPool s' (waiting p ++ [(req, k)]) (log p ++ [req])
  end.

(** Resumes the [i]-th waiting handler with the outcome of its request;
    nothing happens when there is no such handler. *)
Definition resume (t : Z) (i : nat) (o : FetchOutcome J) (p : Pool) : Pool :=
  match waiting p !! i with
  | Some (_, k) => start t (k o) (mkPool (state p) (delete i (waiting p)) (log p))
  | None => p
  end.

End Pool.

Arguments Pool : clear implicits.

End Sched.

(** ** The home page ([web/app/page.tsx]) *)

Module Home.

Import Js Async Sched.
Local Open Scope string_scope.

(** The one piece of state, [backendStatus]. *)
Inductive BackendStatus : Type :=
| Online
| Offline
| Checking.

Definition setBackendStatus (v : BackendStatus) (s : BackendStatus) : BackendStatus := v.

Section Page.

(** The value of [NEXT_PUBLIC_API_BASE_URL] and the type of a health
    body. *)
Variable env : option string.
Variable Health : Type.

(** [checkHealth]: Online when [healthCheck] returns, Offline when it
    throws. *)
Definition checkHealth : Prog BackendStatus Health unit :=
  try_catch
    (_ ← Api.healthCheck env;
     set (setBackendStatus Online))
    (fun error => set (setBackendStatus Offline)).

(** The interval firing (every 30 seconds while the page is mounted), and
    a health request settling. *)
Inductive Event : Type :=
| Tick
| Settle (i : nat) (o : FetchOutcome Health).

(** The page after the mount effect: the state starts as [Checking] and the
    first check is under way. *)
Definition mounted : Pool BackendStatus Health :=
  start 0 checkHealth (mkPool Checking [] []).

Definition step (p : Pool BackendStatus Health) (te : Z * Event) : Pool BackendStatus Health :=
  match te with
  | (t, Tick) => start t checkHealth p
  | (t, Settle i o) => resume t i o p
  end.

Definition steps (p : Pool BackendStatus Health) (trace : list (Z * Event)) :
    Pool BackendStatus Health :=
  fold_left step trace p.

End Page.

End Home.

(** ** The upload page as a transition system *)

Module UploadUi.

Import Js Async Sched.

Section Page.

Variable env : option string.
Variable Result : Type.

(** The initial values passed to [useState]. *)
Definition initial : Upload.Page Result :=
  Upload.mkPage Result None Upload.idle None None.

Definition is_loading (s : Upload.Page Result) : bool :=
  match Upload.state Result s with
  | Upload.loading => true
  | _ => false
  end.

(** [disabled={state === "loading"}] on the file input. *)
Definition file_input_disabled (s : Upload.Page Result) : bool := is_loading s.

(** [disabled={!file || state === "loading"}] on the Upload button. *)
Definition upload_disabled (s : Upload.Page Result) : bool :=
  (match Upload.file Result s with
   | Some _ => false
   | None => true
   end || is_loading s)%bool.

(** A change of the file input ([e.target.files?.[0]]), a click on Upload,
    and an ingest request settling. *)
Inductive Event : Type :=
| SelectFile (selectedFile : option File)
| ClickUpload
| Settle (i : nat) (o : FetchOutcome Result).

(** One event at time [t]; a disabled control delivers no event. *)
Definition step (p : Pool (Upload.Page Result) Result) (te : Z * Event) :
    Pool (Upload.Page Result) Result :=
  match te with
  | (t, SelectFile f) =>
      if file_input_disabled (state p) then p
      else start t (Upload.handleFileChange Result f) p
  | (t, ClickUpload) =>
      if upload_disabled (state p) then p
      else start t (Upload.handleUpload env Result (state p)) p
  | (t, Settle i o) => resume t i o p
  end.

Definition steps (p : Pool (Upload.Page Result) Result) (trace : list (Z * Event)) :
    Pool (Upload.Page Result) Result :=
  fold_left step trace p.

Definition mounted : Pool (Upload.Page Result) Result := mkPool initial [] [].

End Page.

End UploadUi.

(** * Properties *)

(** ** Vocabulary of the statements *)

(** [sub] occurs in [s]. *)
Definition contains (sub s : string) : Prop :=
  exists pre post, s = (pre ++ sub ++ post)%string.

(** [pre] is the beginning of [s]. *)
Definition begins_with (pre s : string) : Prop :=
  exists rest, s = (pre ++ rest)%string.

(** What a call of [queryFinance] settles to, given the outcome of its
    [fetch] (see [exec_queryFinance]). *)
Definition query_result {J} (o : Async.FetchOutcome J) : Async.Thrown + J :=
  match o with
  | Async.Rejected e => inl e
  | Async.Resolved r =>
      if Async.ok r then Async.json r
      else inl (Async.ErrorObj (Api.failure_message "Query failed" r
                                  match Async.text r with
                                  | inr body => body
                                  | inl _ => "Unknown error"%string
                                  end))
  end.

(** The query call fails: it throws instead of returning a body. *)
Definition query_fails {J} (o : Async.FetchOutcome J) : Prop :=
  exists e, query_result o = inl e.

(** The assistant message [handleSend] appends at time [t] once its query
    has settled to [res]. *)
Definition reply_message (t : Z) (res : Async.Thrown + Data.ResponseBody) : Chat.Message :=
  match res with
  | inr response =>
      Chat.mkMessage (Js.show_Z (t + 1)) Chat.assistant (Chat.answer_content response)
        (Some response)
  | inl e => Chat.mkMessage (Js.show_Z (t + 1)) Chat.assistant (Chat.error_content e) None
  end.

(** The state updates of [handleSend] before its await, for a call at time
    [t] from a render with state [s]. *)
Definition sending (t : Z) (s : Chat.Page) (s0 : Chat.Page) : Chat.Page :=
  Chat.setIsLoading true
    (Chat.setInput ""
       (Chat.setMessages
          (fun prev => prev ++ [Chat.mkMessage (Js.show_Z t) Chat.user (Chat.input s) None]) s0)).

(** The state updates of [handleSend] after its await. *)
Definition settling (t : Z) (o : Async.FetchOutcome Data.ResponseBody) (s0 : Chat.Page) : Chat.Page :=
  Chat.setIsLoading false
    (Chat.setMessages (fun prev => prev ++ [reply_message t (query_result o)]) s0).

(** The rest of a handler behaves as the rest of [handleSend]: resumed with
    any outcome it appends the reply, clears the loading flag and finishes
    without awaiting again. *)
Definition resumes_once
    (k : Async.FetchOutcome Data.ResponseBody -> Async.Prog Chat.Page Data.ResponseBody unit) : Prop :=
  forall o t s0, Async.run t (k o) s0 = (settling t o s0, Async.Done (inr tt)).

(** An event that submits: a click on Send, or Enter without Shift. *)
Definition is_submission (e : Chat.Event) : bool :=
  match e with
  | Chat.ClickSend => true
  | Chat.KeyPress key shiftKey => (String.eqb key "Enter" && negb shiftKey)%bool
  | _ => false
  end.

(** The number of submissions in a trace. *)
Definition submissions (trace : list (Z * Chat.Event)) : nat :=
  length (List.filter (fun te => is_submission (snd te)) trace).

(** The number of messages of role [r]. *)
Definition count_role (r : Chat.Role) (ms : list Chat.Message) : nat :=
  length (List.filter (fun m => match Chat.role m, r with
                                | Chat.user, Chat.user => true
                                | Chat.assistant, Chat.assistant => true
                                | _, _ => false
                                end) ms).

(** An entry of the in-flight list that [handleSend] created. *)
Definition from_handleSend (env : option string)
    (entry : Async.Request *
             (Async.FetchOutcome Data.ResponseBody ->
              Async.Prog Chat.Page Data.ResponseBody unit)) : Prop :=
  (exists s, fst entry = Api.query_request env (Chat.build_payload s)) /\
  resumes_once (snd entry).

(** The invariant of a mounted chat page after the events of [trace]. *)
Record consistent (env : option string) (sys : Chat.System)
    (trace : list (Z * Chat.Event)) : Prop := mkConsistent {
  inflight_ok : Forall (from_handleSend env) (Chat.inflight sys);
  at_most_one : length (Chat.inflight sys) <= 1;
  loading_iff : Chat.isLoading (Chat.page sys) = true <-> Chat.inflight sys <> [];
  sent_ok :
    Forall (fun req => exists s, req = Api.query_request env (Chat.build_payload s))
      (Chat.sent sys);
  sent_le : length (Chat.sent sys) <= submissions trace;
  replies_le :
    count_role Chat.assistant (Chat.messages (Chat.page sys)) + length (Chat.inflight sys)
    <= length (Chat.sent sys)
}.

(** Every character of [s] is white space (so is the empty string). *)
Fixpoint whitespace_only (s : string) : bool :=
  match s with
  | EmptyString => true
  | String c r => (Js.is_white c && whitespace_only r)%bool
  end.


(** A stand-in for the platform's [JSON.parse] on a stored preview: it
    accepts the empty array and throws on everything else. *)
Definition parse_empty_array_only (s : string) : option Js.Json :=
  if String.eqb (Js.trim s) "[]" then Some (Js.JArray []) else None.

(** The whole number [n] as a decimal. *)
Definition decimal_of_nat (n : nat) : Data.decimal := (100 * Z.of_nat n)%Z.

(** The columns of the evidence table, left to right. *)
Definition evidence_fields : list string :=
  ["date"; "where"; "what"; "amount"; "category"; "source"]%string.

(** Sample data: six Food expenses in June 2025 that total 59.87, beside
    rows of another month, another category and another kind. *)
Definition sample_store : Engine.Store :=
  let row y m d a k c w :=
    Data.mkTransaction (Data.mkDate y m d) a k w "card payment" c "Chase" in
  [ row 2025 6 30 2371 Data.expense "Food" "Strings Ramen";
    row 2025 6 12 1229 Data.expense "Food" "Burger Federation";
    row 2025 6 28 1000 Data.expense "Food" "Thai Essence";
    row 2025 5 28 1800 Data.expense "Food" "Thai Essence";
    row 2025 6 3 550 Data.expense "Food" "Corner Bakery";
    row 2025 6 1 120000 Data.expense "Rent" "Landlord";
    row 2025 6 17 437 Data.expense "Food" "Noodle Bar";
    row 2025 6 15 250000 Data.income "Food" "Employer";
    row 2025 6 21 400 Data.expense "Food" "Coffee Cart" ]%Z%string.

(** A resolver that knows three questions. *)
Definition sample_resolver (question : string) (store : Engine.Store) : Engine.Entities :=
  if String.eqb question "How much did I spend on Food in June 2025?" then
    Engine.mkEntities (Some (Data.mkMonth 2025 6)) (Some "Food"%string) None None
  else if String.eqb question "How much did I spend in July 2025?" then
    Engine.mkEntities (Some (Data.mkMonth 2025 7)) None None None
  else if String.eqb question "How much did I spend on Food at Thai Essence?" then
    Engine.mkEntities None (Some "Food"%string) (Some "Thai Essence"%string) None
  else Engine.mkEntities None None None None.

(** What a call of one of the three API functions settles to, given the
    outcome of its [fetch]; [what] is the function's error prefix. *)
Definition call_result {J} (what : string) (o : Async.FetchOutcome J) : Async.Thrown + J :=
  match o with
  | Async.Rejected e => inl e
  | Async.Resolved r =>
      if Async.ok r then Async.json r
      else inl (Async.ErrorObj (Api.failure_message what r
                                  match Async.text r with
                                  | inr body => body
                                  | inl _ => "Unknown error"%string
                                  end))
  end.

(** The health request succeeds: the response is ok and its body parses. *)
Definition healthy {J} (o : Async.FetchOutcome J) : bool :=
  match o with
  | Async.Resolved r => (Async.ok r && match Async.json r with inr _ => true | inl _ => false end)%bool
  | Async.Rejected _ => false
  end.

(** The number of interval firings in a trace of the home page. *)
Definition ticks {J} (trace : list (Z * Home.Event J)) : nat :=
  length (List.filter (fun te => match snd te with Home.Tick _ => true | _ => false end) trace).

(** Reads a message list as a dialogue: [Some r] when the roles alternate
    from [expect] on, [r] being the role due next; [None] otherwise. *)
Fixpoint dialogue (expect : Chat.Role) (ms : list Chat.Message) : option Chat.Role :=
  match ms with
  | [] => Some expect
  | m :: rest =>
      match Chat.role m, expect with
      | Chat.user, Chat.user => dialogue Chat.assistant rest
      | Chat.assistant, Chat.assistant => dialogue Chat.user rest
      | _, _ => None
      end
  end.

(** The trace holds no click on the Upload new CSV link. *)
Definition keeps_messages (trace : list (Z * Chat.Event)) : Prop :=
  Forall (fun te => snd te <> Chat.ClickUploadNew) trace.

(** The rest of a handler behaves as the rest of [checkHealth]: resumed
    with any outcome it sets the status and finishes without awaiting
    again. *)
Definition reports_health {J}
    (k : Async.FetchOutcome J -> Async.Prog Home.BackendStatus J unit) : Prop :=
  forall o t s,
    Async.run t (k o) s = (if healthy o then Home.Online else Home.Offline, Async.Done (inr tt)).

(** The invariant of a mounted home page after the events of [trace]. *)
Record home_consistent {J} (env : option string)
    (p : Sched.Pool Home.BackendStatus J) (trace : list (Z * Home.Event J)) : Prop :=
  mkHomeConsistent {
  home_waiting : Forall (fun entry => reports_health (snd entry)) (Sched.waiting p);
  home_log : Forall (fun req => req = Api.health_request env) (Sched.log p);
  home_count : length (Sched.log p) = 1 + ticks trace;
  home_bound : length (Sched.waiting p) <= length (Sched.log p);
  home_checking :
    Sched.state p = Home.Checking <-> length (Sched.waiting p) = length (Sched.log p)
}.

(** The first character of [s] is white space. *)
Definition starts_white (s : string) : bool :=
  match s with
  | String c _ => Js.is_white c
  | EmptyString => false
  end.

(** The last character of [s] is white space. *)
Fixpoint ends_white (s : string) : bool :=
  match s with
  | EmptyString => false
  | String c EmptyString => Js.is_white c
  | String _ r => ends_white r
  end.

(** The page an event leaves behind, read off the handlers. *)
Definition page_after (t : Z) (e : Chat.Event) (inflight_count : nat) (s : Chat.Page) : Chat.Page :=
  match e with
  | Chat.ChangeInput v => Chat.setInput v s
  | Chat.ChangeMonth v => Chat.setMonth v s
  | Chat.ChangeLimit v => Chat.setLimitEvidence (Js.int_or_else (Js.parseInt v) 20) s
  | Chat.ClickSend => if Chat.send_disabled s then s else sending t s s
  | Chat.KeyPress key shiftKey =>
      if (String.eqb key "Enter" && negb shiftKey)%bool then
        if Chat.send_disabled s then s else sending t s s
      else s
  | Chat.ClickViewCsv => Chat.setShowPreviewModal true s
  | Chat.CloseModal => Chat.setShowPreviewModal false s
  | Chat.ClickUploadNew => Chat.setMessages (fun _ => []) s
  | Chat.Settle i o => if Nat.ltb i inflight_count then settling t o s else s
  end.

(** The message the upload page shows for a thrown value. *)
Definition upload_error_text (e : Async.Thrown) : string :=
  match e with
  | Async.ErrorObj message => message
  | Async.NonError => "Failed to upload file"%string
  end.

(** The state updates of [handleUpload] before its await. *)
Definition upload_started {R} (s : Upload.Page R) : Upload.Page R :=
  Upload.setResult R None (Upload.setError R None (Upload.setState R Upload.loading s)).

(** The state updates of [handleUpload] after its await. *)
Definition upload_finished {R} (o : Async.FetchOutcome R) (s : Upload.Page R) : Upload.Page R :=
  match call_result "CSV ingestion failed" o with
  | inr body => Upload.setState R Upload.success (Upload.setResult R (Some body) s)
  | inl e => Upload.setState R Upload.error (Upload.setError R (Some (upload_error_text e)) s)
  end.

(** The rest of a handler behaves as the rest of [handleUpload]. *)
Definition finishes_upload {R}
    (k : Async.FetchOutcome R -> Async.Prog (Upload.Page R) R unit) : Prop :=
  forall o t s, Async.run t (k o) s = (upload_finished o s, Async.Done (inr tt)).

(** What the four fields of the upload page hold in each state. *)
Definition upload_fields_agree {R} (s : Upload.Page R) : Prop :=
  match Upload.state R s with
  | Upload.idle => Upload.result R s = None /\ Upload.error_message R s = None
  | Upload.loading =>
      Upload.result R s = None /\ Upload.error_message R s = None /\
      is_Some (Upload.file R s)
  | Upload.success =>
      Upload.error_message R s = None /\ is_Some (Upload.file R s)
  | Upload.error =>
      Upload.result R s = None /\ is_Some (Upload.error_message R s) /\
      is_Some (Upload.file R s)
  end.

(** The invariant of a mounted upload page. *)
Record upload_consistent {R} (env : option string)
    (p : Sched.Pool (Upload.Page R) R) : Prop := mkUploadConsistent {
  upload_waiting : Forall (fun entry => finishes_upload (snd entry)) (Sched.waiting p);
  upload_one : length (Sched.waiting p) <= 1;
  upload_loading : UploadUi.is_loading R (Sched.state p) = true <-> Sched.waiting p <> [];
  upload_fields : upload_fields_agree (Sched.state p);
  upload_log :
    Forall (fun req => exists f, req = Api.ingest_request env f) (Sched.log p)
}.

(** ** Strings *)

Lemma string_app_assoc (a b c : string) :
  ((a ++ b) ++ c)%string = (a ++ b ++ c)%string.
Proof.
  induction a as [|x a IH]; [reflexivity|].
  change (String x ((a ++ b) ++ c)%string = String x (a ++ b ++ c)%string).
  now rewrite IH.
Qed.

(** ** [api.ts] *)

Section ApiFacts.

Import Js Async Api.
Context {St J : Type}.
Variable env : option string.

Lemma exec_queryFinance payload (net : Request -> FetchOutcome J) t (s : St) :
  exec net t (queryFinance env payload) s =
    ([query_request env payload], s, query_result (net (query_request env payload))).
Proof.
  unfold queryFinance, query_result, mbind, Prog_bind, fetch. simpl.
  destruct (net (query_request env payload)) as [e|r]; simpl; [reflexivity|].
  destruct (ok r); simpl.
  - destruct (json r); reflexivity.
  - unfold error_text. destruct (text r); reflexivity.
Qed.

Lemma exec_ingestCsv file (net : Request -> FetchOutcome J) t (s : St) :
  exec net t (ingestCsv env file) s =
    ([ingest_request env file], s,
     match net (ingest_request env file) with
     | Rejected e => inl e
     | Resolved r =>
         if ok r then json r
         else inl (ErrorObj (failure_message "CSV ingestion failed" r
                               match text r with
                               | inr body => body
                               | inl _ => "Unknown error"%string
                               end))
     end).
Proof.
  unfold ingestCsv, mbind, Prog_bind, fetch. simpl.
  destruct (net (ingest_request env file)) as [e|r]; simpl; [reflexivity|].
  destruct (ok r); simpl.
  - destruct (json r); reflexivity.
  - unfold error_text. destruct (text r); reflexivity.
Qed.

Lemma failure_message_contains what (r : HttpResponse J) errorText :
  contains (show_Z (status r)) (failure_message what r errorText) /\
  contains (statusText r) (failure_message what r errorText).
Proof.
  unfold failure_message, contains. split.
  - exists (what ++ ": ")%string, (" " ++ statusText r ++ " - " ++ errorText)%string.
    now rewrite !string_app_assoc.
  - exists (what ++ ": " ++ show_Z (status r) ++ " ")%string, (" - " ++ errorText)%string.
    now rewrite !string_app_assoc.
Qed.

(** C4 (as amended): every call of [queryFinance] issues exactly one request,
    a POST of the JSON-serialized payload to [/query], and changes no state.
    When [fetch] resolves with a response, the call returns a value exactly
    when the response is ok and its body parses as JSON, and that value is
    the parsed body; when the response is ok but [response.json()] rejects,
    what the call throws is that very parse error; on a response that is not
    ok it throws an [Error] whose message contains the status code and the
    status text.  When [fetch] itself rejects, the rejection is passed on.
    No outcome leads to a second request. *)
Theorem queryFinance_single_post payload (net : Request -> FetchOutcome J) t (s : St) :
  exists res,
    exec net t (queryFinance env payload) s = ([query_request env payload], s, res) /\
    req_method (query_request env payload) = "POST"%string /\
    req_url (query_request env payload) = (API_BASE env ++ "/query")%string /\
    req_body (query_request env payload) = TextBody (JSON_stringify payload) /\
    match net (query_request env payload) with
    | Rejected e => res = inl e
    | Resolved r =>
        (forall j, res = inr j <-> ok r = true /\ json r = inr j) /\
        (forall e, ok r = true -> json r = inl e -> res = inl e) /\
        (ok r = false ->
         exists msg, res = inl (ErrorObj msg) /\
                     contains (show_Z (status r)) msg /\
                     contains (statusText r) msg)
    end.
Proof.
  eexists. split; [apply exec_queryFinance|].
  repeat split; try reflexivity. unfold query_result.
  destruct (net (query_request env payload)) as [e|r]; [reflexivity|].
  split; [|split].
  - intros j. destruct (ok r).
    + split; [intros H; split; [reflexivity | exact H] | intros [_ H]; exact H].
    + split; [discriminate | intros [H _]; discriminate].
  - intros e Hok Hjson. rewrite Hok. exact Hjson.
  - intros Hok. rewrite Hok. eexists. split; [reflexivity|].
    apply failure_message_contains.
Qed.

End ApiFacts.

(** ** The upload page *)

Section UploadFacts.

Import Js Async Api.
Context {St Result : Type}.
Variable env : option string.

Lemma exec_handleUpload (page s0 : Upload.Page Result)
    (net : Request -> FetchOutcome Result) t :
  fst (fst (exec net t (Upload.handleUpload env Result page) s0)) =
    match Upload.file Result page with
    | Some f => [ingest_request env f]
    | None => []
    end.
Proof.
  unfold Upload.handleUpload. destruct (Upload.file Result page) as [f|]; [|reflexivity].
  unfold ingestCsv, mbind, Prog_bind, fetch, set. simpl.
  destruct (net (ingest_request env f)) as [e|r]; simpl; [reflexivity|].
  destruct (ok r); simpl.
  - destruct (json r); reflexivity.
  - unfold error_text. destruct (text r); reflexivity.
Qed.

(** C6: for every file, [ingestCsv] issues exactly one request, a POST of
    the file as form data to [/ingest?replace=true]; whatever the server
    answers, no other request follows.  The upload page, the one caller of
    [ingestCsv], issues no request without a selected file and that one
    request with one. *)
Theorem ingestCsv_always_replace file (net : Request -> FetchOutcome Result) t (s : St)
    (page s0 : Upload.Page Result) :
  fst (fst (exec net t (ingestCsv env file) s)) = [ingest_request env file] /\
  req_method (ingest_request env file) = "POST"%string /\
  req_url (ingest_request env file) = (API_BASE env ++ "/ingest?replace=true")%string /\
  req_body (ingest_request env file) = FormBody [("file"%string, file)] /\
  Forall (fun req => exists f, Upload.file Result page = Some f /\ req = ingest_request env f)
    (fst (fst (exec net t (Upload.handleUpload env Result page) s0))) /\
  length (fst (fst (exec net t (Upload.handleUpload env Result page) s0))) <= 1.
Proof.
  rewrite exec_ingestCsv, exec_handleUpload.
  repeat split; try reflexivity.
  - destruct (Upload.file Result page) as [f|]; repeat constructor. now exists f.
  - destruct (Upload.file Result page); simpl; lia.
Qed.

End UploadFacts.

(** C4, as first stated, fails: a response that is ok but whose body is not
    JSON makes [queryFinance] throw the parse error instead of returning. *)
Lemma queryFinance_ok_response_can_throw :
  let r : Async.HttpResponse nat :=
    Async.mkHttpResponse true 200 "OK" (inr "<html></html>"%string)
      (inl (Async.ErrorObj "Unexpected token < in JSON at position 0")) in
  Async.ok r = true /\
  snd (Async.exec (fun _ => Async.Resolved r) 0
         (Api.queryFinance None (Api.mkPayload "How much did I spend?" None None)) tt)
  = inl (Async.ErrorObj "Unexpected token < in JSON at position 0").
Proof. split; reflexivity. Qed.

(** ** The chat page *)

Section ChatFacts.

Import Js Data Async Chat.
Variable env : option string.
Variable JSON_parse : string -> option Json.

Lemma handleSend_blocked s :
  send_disabled s = true -> handleSend env s = Ret tt.
Proof. unfold send_disabled, handleSend. intros ->. reflexivity. Qed.

Lemma handleSend_sends s t s0 :
  send_disabled s = false ->
  exists k,
    run t (handleSend env s) s0 =
      (sending t s s0, Waiting (Api.query_request env (build_payload s)) k) /\
    resumes_once k.
Proof.
  unfold send_disabled, handleSend. intros ->.
  unfold mbind, Prog_bind, now, set. simpl.
  eexists. split; [reflexivity|].
  intros o t' s'. unfold settling, query_result.
  destruct o as [e|r]; simpl; [reflexivity|].
  destruct (ok r); simpl.
  - destruct (json r); reflexivity.
  - unfold Api.error_text. destruct (text r); reflexivity.
Qed.

Lemma send_enabled_not_loading s : send_disabled s = false -> isLoading s = false.
Proof. unfold send_disabled. intros H. apply orb_false_iff in H. tauto. Qed.

Lemma submissions_snoc trace te :
  submissions (trace ++ [te]) =
    submissions trace + (if is_submission (snd te) then 1 else 0).
Proof.
  unfold submissions. rewrite List.filter_app, length_app. simpl.
  destruct (is_submission (snd te)); reflexivity.
Qed.

Lemma count_role_snoc r ms m :
  count_role r (ms ++ [m]) = count_role r ms + count_role r [m].
Proof. unfold count_role. now rewrite List.filter_app, length_app. Qed.

Lemma count_reply t res : count_role assistant [reply_message t res] = 1.
Proof. destruct res; reflexivity. Qed.

(** A handler that only updates the state, leaving the loading flag alone and
    adding no assistant message, keeps the invariant. *)
Lemma update_consistent sys trace t te f :
  consistent env sys trace ->
  isLoading (f (page sys)) = isLoading (page sys) ->
  count_role assistant (messages (f (page sys))) <= count_role assistant (messages (page sys)) ->
  consistent env (launch t (set f) sys) (trace ++ [te]).
Proof.
  intros [H1 H2 H3 H4 H5 H6] Hl Hc. unfold launch, set. simpl.
  constructor; simpl; try assumption.
  - now rewrite Hl.
  - rewrite submissions_snoc. lia.
  - lia.
Qed.

Lemma idle_consistent sys trace t te :
  consistent env sys trace ->
  consistent env (launch t (Ret tt) sys) (trace ++ [te]).
Proof.
  intros [H1 H2 H3 H4 H5 H6]. unfold launch. simpl.
  constructor; simpl; try assumption.
  rewrite submissions_snoc. lia.
Qed.

Lemma handleSend_consistent sys trace t te :
  is_submission (snd te) = true ->
  consistent env sys trace ->
  consistent env (launch t (handleSend env (page sys)) sys) (trace ++ [te]).
Proof.
  intros Hsub Hc. destruct (send_disabled (page sys)) eqn:Hg.
  - rewrite (handleSend_blocked _ Hg). now apply idle_consistent.
  - destruct (handleSend_sends (page sys) t (page sys) Hg) as (k & Hrun & Hk).
    destruct Hc as [H1 H2 H3 H4 H5 H6].
    assert (Hnone : inflight sys = []).
    { destruct (inflight sys) as [|x l] eqn:E; [reflexivity|].
      assert (isLoading (page sys) = true) as Hl by (apply H3; discriminate).
      rewrite (send_enabled_not_loading _ Hg) in Hl. discriminate. }
    unfold launch. rewrite Hrun. rewrite Hnone in *.
    constructor; simpl.
    + constructor; [|constructor]. split; simpl; [eexists; reflexivity | exact Hk].
    + lia.
    + split; [discriminate | reflexivity].
    + apply Forall_app. split; [assumption|]. constructor; [eexists; reflexivity | constructor].
    + rewrite submissions_snoc, Hsub, length_app. simpl. lia.
    + rewrite count_role_snoc, length_app. simpl in *. unfold count_role at 2. simpl. lia.
Qed.

Lemma settle_consistent sys trace t i o :
  consistent env sys trace ->
  consistent env (step env sys (t, Settle i o)) (trace ++ [(t, Settle i o)]).
Proof.
  intros Hc. unfold step.
  destruct (inflight sys !! i) as [[req k]|] eqn:Hi.
  - destruct Hc as [H1 H2 H3 H4 H5 H6].
    destruct (inflight sys) as [|x [|y l]] eqn:E; simpl in H2; [discriminate | | lia].
    destruct i as [|i]; [|discriminate]. simpl in Hi. injection Hi as ->.
    apply Forall_cons in H1 as [[_ Hk] _]. simpl in Hk.
    unfold launch. simpl. rewrite Hk.
    constructor; simpl; try assumption.
    + constructor.
    + lia.
    + split; [discriminate | intros H; now elim H].
    + rewrite submissions_snoc. simpl. lia.
    + rewrite count_role_snoc, count_reply. simpl in H6. lia.
  - destruct Hc as [H1 H2 H3 H4 H5 H6].
    constructor; try assumption. rewrite submissions_snoc. simpl. lia.
Qed.

Lemma step_consistent sys trace te :
  consistent env sys trace ->
  consistent env (step env sys te) (trace ++ [te]).
Proof.
  intros Hc. destruct te as [t e].
  destruct e;
    try (apply update_consistent; [assumption | reflexivity | unfold count_role; simpl; lia]).
  - now apply handleSend_consistent.
  - simpl. unfold handleKeyPress.
    destruct (String.eqb key "Enter" && negb shiftKey)%bool eqn:Hk.
    + now apply handleSend_consistent.
    + now apply idle_consistent.
  - now apply settle_consistent.
Qed.

Lemma onMount_done ls :
  exists name preview,
    run 0 (onMount JSON_parse ls) initial =
      (setCsvPreview preview (setCsvName name initial), Done (inr tt)).
Proof.
  unfold onMount, mbind, Prog_bind, set. simpl.
  destruct (ls !! "pfa_csv_preview"%string) as [str|]; simpl.
  - destruct (truthy_string str); simpl.
    + destruct (JSON_parse str); simpl; eexists _, _; reflexivity.
    + exists (ls !! "pfa_csv_name"%string), None. reflexivity.
  - exists (ls !! "pfa_csv_name"%string), None. reflexivity.
Qed.

Lemma mounted_consistent ls : consistent env (mounted JSON_parse ls) [].
Proof.
  unfold mounted, launch. cbn [page inflight sent].
  destruct (onMount_done ls) as (name & preview & ->). simpl.
  constructor; simpl; try constructor; try lia.
  intros H. now elim H.
Qed.

Lemma reachable_consistent ls trace :
  consistent env (steps env (mounted JSON_parse ls) trace) trace.
Proof.
  induction trace as [|te trace IH] using rev_ind.
  - apply mounted_consistent.
  - unfold steps in *. rewrite fold_left_app. simpl. now apply step_consistent.
Qed.

Lemma trim_start_empty s :
  truthy_string (trim_start s) = false <-> whitespace_only s = true.
Proof.
  induction s as [|c r IH]; simpl; [tauto|].
  destruct (is_white c); simpl; [exact IH|]. split; discriminate.
Qed.

Lemma trim_end_nonwhite c r :
  is_white c = false -> truthy_string (trim_end (String c r)) = true.
Proof. intros H. simpl. rewrite H. destruct (trim_end r); reflexivity. Qed.

Lemma trim_start_head s c r :
  trim_start s = String c r -> is_white c = false.
Proof.
  induction s as [|x s IH]; simpl; [discriminate|].
  destruct (is_white x) eqn:E; [exact IH|]. intros H. injection H as <- _. exact E.
Qed.

Lemma trim_empty s : truthy_string (trim s) = false <-> whitespace_only s = true.
Proof.
  rewrite <- trim_start_empty. unfold trim.
  destruct (trim_start s) as [|c r] eqn:E; simpl; [tauto|].
  rewrite <- (trim_end_nonwhite c r (trim_start_head _ _ _ E)). simpl. tauto.
Qed.

Lemma steps_snoc sys trace te :
  steps env sys (trace ++ [te]) = step env (steps env sys trace) te.
Proof. unfold steps. now rewrite fold_left_app. Qed.

Lemma settle_first sys trace t i o :
  consistent env sys trace ->
  i < length (inflight sys) ->
  step env sys (t, Settle i o) = mkSystem (settling t o (page sys)) [] (sent sys).
Proof.
  intros [H1 H2 _ _ _ _] Hi. unfold step.
  destruct (inflight sys) as [|[req k] [|y l]] eqn:E; simpl in *; [lia | | lia].
  destruct i as [|i]; [|lia]. simpl.
  apply Forall_cons in H1 as [[_ Hk] _]. simpl in Hk.
  unfold launch. simpl. now rewrite Hk.
Qed.

(** C9: in every state a mounted chat page can reach, at most one request
    is in flight, and the loading flag is set exactly while one is.
    [handleSend] is the empty program (no state update, no request) when the
    input is empty or white space only, or when the page is loading.
    Otherwise it appends the user message, clears the input, sets the loading
    flag and issues one request; when that request settles, one assistant
    message is appended, the loading flag is cleared and nothing is in flight.
    Over a whole trace there are at most as many requests as submissions, and
    at most as many assistant messages as requests. *)
Theorem one_request_in_flight ls trace :
  let sys := steps env (mounted JSON_parse ls) trace in
  length (inflight sys) <= 1 /\
  (isLoading (page sys) = true <-> inflight sys <> []) /\
  (forall s, whitespace_only (input s) = true \/ isLoading s = true ->
             handleSend env s = Ret tt) /\
  (forall t, send_disabled (page sys) = true -> step env sys (t, ClickSend) = sys) /\
  (forall t, send_disabled (page sys) = false ->
     exists k,
       resumes_once k /\
       step env sys (t, ClickSend) =
         mkSystem (sending t (page sys) (page sys))
           [(Api.query_request env (build_payload (page sys)), k)]
           (sent sys ++ [Api.query_request env (build_payload (page sys))])) /\
  (forall t i o, i < length (inflight sys) ->
     step env sys (t, Settle i o) = mkSystem (settling t o (page sys)) [] (sent sys)) /\
  length (sent sys) <= submissions trace /\
  count_role assistant (messages (page sys)) + length (inflight sys) <= length (sent sys).
Proof.
  intros sys. pose proof (reachable_consistent ls trace) as Hc. fold sys in Hc.
  pose proof Hc as [H1 H2 H3 H4 H5 H6].
  repeat split; try assumption; try (apply H3).
  - intros s Hs. apply handleSend_blocked. unfold send_disabled.
    destruct Hs as [Hs| ->]; [|apply orb_true_r].
    apply trim_empty in Hs. now rewrite Hs.
  - intros t Hg. simpl. rewrite (handleSend_blocked _ Hg). unfold launch. simpl.
    now destruct sys.
  - intros t Hg. destruct (handleSend_sends (page sys) t (page sys) Hg) as (k & Hrun & Hk).
    exists k. split; [exact Hk|]. simpl. unfold launch. rewrite Hrun.
    assert (Hnone : inflight sys = []).
    { destruct (inflight sys) as [|x l] eqn:E; [reflexivity|].
      assert (isLoading (page sys) = true) as Hl by (apply H3; discriminate).
      rewrite (send_enabled_not_loading _ Hg) in Hl. discriminate. }
    now rewrite Hnone.
  - intros t i o Hi. now apply (settle_first sys trace).
Qed.

(** C5: when the query call of a submission fails, the page appends exactly
    one message, an assistant message whose content begins with [Error:],
    clears the loading flag, and sends nothing: the list of requests sent is
    unchanged and no request is left in flight. *)
Theorem failed_query_reports_error ls trace t i o :
  let sys := steps env (mounted JSON_parse ls) trace in
  let sys' := step env sys (t, Settle i o) in
  i < length (inflight sys) ->
  query_fails o ->
  exists m,
    messages (page sys') = messages (page sys) ++ [m] /\
    role m = assistant /\
    begins_with "Error:" (content m) /\
    data m = None /\
    isLoading (page sys') = false /\
    sent sys' = sent sys /\
    inflight sys' = [].
Proof.
  intros sys sys' Hi [e He]. subst sys'.
  rewrite (settle_first sys trace t i o (reachable_consistent ls trace) Hi).
  unfold settling. rewrite He. simpl.
  eexists. repeat split.
  unfold error_content. exists (" " ++ match e with
                                       | ErrorObj message => message
                                       | NonError => "Failed to get response"
                                       end)%string.
  reflexivity.
Qed.

(** C3: the evidence limit starts at 20.  The payload of a submission has
    the [limit_evidence] field exactly when the current limit is strictly
    positive, and then the field is that limit.  Text for which [parseInt]
    gives [NaN] or zero sets the limit to 20.  Every request a mounted page
    has sent carries a payload whose [limit_evidence], when present, is
    strictly positive. *)
Theorem limit_evidence_positive_or_absent ls trace :
  limitEvidence initial = 20%Z /\
  limitEvidence (page (mounted JSON_parse ls)) = 20%Z /\
  (forall s v, Api.limit_evidence (build_payload s) = Some v <->
               (0 < limitEvidence s)%Z /\ v = limitEvidence s) /\
  (forall value t s, parseInt value = NaN \/ parseInt value = Int 0 ->
     run t (onLimitChange value) s = (setLimitEvidence 20 s, Done (inr tt))) /\
  Forall (fun req =>
            exists payload,
              req = Api.query_request env payload /\
              forall v, Api.limit_evidence payload = Some v -> (0 < v)%Z)
    (sent (steps env (mounted JSON_parse ls) trace)).
Proof.
  assert (Hpay : forall s v, Api.limit_evidence (build_payload s) = Some v <->
                             (0 < limitEvidence s)%Z /\ v = limitEvidence s).
  { intros s v. unfold build_payload. simpl.
    destruct (0 <? limitEvidence s)%Z eqn:E.
    - apply Z.ltb_lt in E. split; [intros [= <-]; tauto | intros [_ ->]; reflexivity].
    - apply Z.ltb_ge in E. split; [discriminate | lia]. }
  split; [reflexivity|]. split; [|split; [exact Hpay|split]].
  - unfold mounted, launch. cbn [page inflight sent].
    destruct (onMount_done ls) as (name & preview & ->). reflexivity.
  - intros value t s [H|H]; unfold onLimitChange; rewrite H; reflexivity.
  - eapply Forall_impl; [apply (sent_ok _ _ _ (reachable_consistent ls trace))|].
    intros req [s ->]. exists (build_payload s). split; [reflexivity|].
    intros v Hv. apply Hpay in Hv. lia.
Qed.

(** C10: when the preview stored under [pfa_csv_preview] is not valid JSON,
    the mount effect finishes normally (no exception escapes it), the preview
    state is [null], and the View CSV button is disabled. *)
Theorem invalid_preview_is_caught ls str :
  ls !! "pfa_csv_preview"%string = Some str ->
  JSON_parse str = None ->
  let sys := mounted JSON_parse ls in
  run 0 (onMount JSON_parse ls) initial = (page sys, Done (inr tt)) /\
  csvPreview (page sys) = None /\
  view_csv_disabled (page sys) = true /\
  inflight sys = [] /\ sent sys = [].
Proof.
  intros Hls Hparse. unfold mounted, launch. cbn [page inflight sent].
  unfold onMount, mbind, Prog_bind, set. simpl. rewrite Hls. simpl.
  destruct (truthy_string str); simpl; [rewrite Hparse; simpl|]; repeat split.
Qed.

End ChatFacts.

(** ** The query engine *)

Section EngineFacts.

Import Js Data Engine.
Variable resolve_entities : string -> Store -> Entities.

Lemma sum_amounts_perm (l l' : list Transaction) :
  l ≡ₚ l' -> sum_amounts l = sum_amounts l'.
Proof.
  induction 1 as [|x l l' _ IH|x y l|l1 l2 l3 _ IH1 _ IH2]; simpl.
  - reflexivity.
  - now rewrite IH.
  - lia.
  - congruence.
Qed.

Lemma select_unlimited store f :
  select store f None ≡ₚ apply_filter store f.
Proof. unfold select. apply merge_sort_Permutation. Qed.

Lemma select_limited store f n :
  select store f (Some n) = take n (select store f None).
Proof. reflexivity. Qed.

(** C1: for every query that is fully resolved (it is answered, not met
    with a clarifying question), the reported total is the exact sum of the
    amounts of the unlimited evidence set, the reported count is the size of
    that set, the unlimited evidence set is the set of rows matching the
    filter the trace reports, and the evidence returned is its first rows up
    to the limit. *)
Theorem evidence_consistent_with_numbers store question month limit_evidence :
  let r := query resolve_entities store question month limit_evidence in
  let unlimited := r_evidence (answer resolve_entities store question month None) in
  is_Some (r_final_answer r) ->
  r_numbers r !! "total"%string = Some (sum_amounts unlimited) /\
  r_numbers r !! "count"%string = Some (decimal_of_nat (length unlimited)) /\
  unlimited ≡ₚ apply_filter store (filters_used (r_trace r)) /\
  r_evidence r =
    take (match limit_evidence with Some n => Pos.to_nat n | None => 20 end) unlimited /\
  evidence_count_returned (r_trace r) = length (r_evidence r).
Proof.
  unfold query, answer.
  destruct (dispatch (resolve_intent (resolve_entities question store) month))
    as [name f|missing]; simpl.
  - intros _. pose proof (select_unlimited store f) as Hp.
    repeat split.
    + rewrite lookup_insert_eq. f_equal. symmetry. now apply sum_amounts_perm.
    + rewrite lookup_insert_ne by discriminate. rewrite lookup_insert_eq.
      unfold decimal_of_nat. do 3 f_equal. symmetry. now apply Permutation_length.
    + exact Hp.
  - intros [x Hx]. discriminate.
Qed.

Lemma answer_text_nonempty f r : truthy_string (answer_text f r) = true.
Proof. reflexivity. Qed.

Lemma clarifying_text_nonempty missing : truthy_string (clarifying_text missing) = true.
Proof. reflexivity. Qed.

Lemma row_of_dom t : dom (row_of t) = list_to_set evidence_fields.
Proof.
  unfold row_of, evidence_fields. rewrite !dom_insert_L, dom_empty_L. simpl. set_solver.
Qed.

(** C2: every response the query operation produces has exactly one of
    [final_answer] and [clarifying_question] populated, with a non-empty
    string.  The content the chat page gives the assistant message is the
    final answer when it is populated and the clarifying question otherwise,
    [AssistantMessage] shows that one paragraph only, and this is the message
    [handleSend] appends when the request settles with this body. *)
Theorem exactly_one_of_answer_and_question store question month limit_evidence :
  let b := to_body (query resolve_entities store question month limit_evidence) in
  ((exists a, final_answer b = Some a /\ clarifying_question b = None /\
              truthy_string a = true /\ Chat.answer_content b = a /\
              forall t, exists n v,
                Chat.AssistantMessage (reply_message t (inr b)) =
                  Chat.RichContent (Some a) None n v)
   \/
   (exists q, final_answer b = None /\ clarifying_question b = Some q /\
              truthy_string q = true /\ Chat.answer_content b = q /\
              forall t, exists n v,
                Chat.AssistantMessage (reply_message t (inr b)) =
                  Chat.RichContent None (Some q) n v)) /\
  (forall env JSON_parse ls trace t i (resp : Async.HttpResponse ResponseBody),
     let sys := Chat.steps env (Chat.mounted JSON_parse ls) trace in
     i < length (Chat.inflight sys) ->
     Async.ok resp = true ->
     Async.json resp = inr b ->
     Chat.messages (Chat.page (Chat.step env sys (t, Chat.Settle i (Async.Resolved resp)))) =
       Chat.messages (Chat.page sys) ++
         [Chat.mkMessage (show_Z (t + 1)) Chat.assistant (Chat.answer_content b) (Some b)]).
Proof.
  intros b. split.
  - subst b. unfold query, answer.
    destruct (dispatch (resolve_intent (resolve_entities question store) month))
      as [name f|missing]; simpl.
    + left. eexists. repeat split. intros t. eexists _, _. reflexivity.
    + right. eexists. repeat split. intros t. eexists _, _. reflexivity.
  - intros env JSON_parse ls trace t i resp sys Hi Hok Hjson.
    rewrite (settle_first env sys trace t i _ (reachable_consistent env JSON_parse ls trace) Hi).
    unfold settling, query_result. rewrite Hok, Hjson. reflexivity.
Qed.

(** C8: every evidence row of a response is an object whose properties are
    exactly [date], [where], [what], [amount], [category] and [source].  A
    row of the evidence table is a function of these six properties alone, it
    depends on each of them, a missing or empty one is shown as ["-"], and a
    non-empty one other than the amount is shown as it is. *)
Theorem evidence_rows_have_six_fields store question month limit_evidence :
  (forall rows,
     evidence (to_body (query resolve_entities store question month limit_evidence)) = Some rows ->
     Forall (fun row : gmap string string => dom row = list_to_set evidence_fields) rows) /\
  (forall row row' : gmap string string,
     (forall key, In key evidence_fields -> row !! key = row' !! key) ->
     Chat.evidence_row row = Chat.evidence_row row') /\
  (forall key, In key evidence_fields ->
     exists row row' : gmap string string,
       (forall k, k <> key -> row !! k = row' !! k) /\
       Chat.evidence_row row <> Chat.evidence_row row') /\
  (forall (row : gmap string string) i key,
     evidence_fields !! i = Some key ->
     truthy (row !! key) = false ->
     Chat.evidence_row row !! i = Some (Some "-"%string)) /\
  (forall (row : gmap string string) i key v,
     evidence_fields !! i = Some key ->
     key <> "amount"%string ->
     row !! key = Some v ->
     truthy_string v = true ->
     Chat.evidence_row row !! i = Some (Some v)).
Proof.
  split; [|split; [|split; [|split]]].
  - intros rows [= <-]. apply Forall_fmap, Forall_forall. intros t _. apply row_of_dom.
  - intros row row' H. unfold Chat.evidence_row.
    rewrite !H by (simpl; tauto). reflexivity.
  - intros key Hkey. exists ∅, {[ key := "1"%string ]}. split.
    + intros k Hk. now rewrite lookup_empty, lookup_singleton_ne.
    + simpl in Hkey.
      destruct Hkey as [<-|[<-|[<-|[<-|[<-|[<-|[]]]]]]]; vm_compute; discriminate.
  - intros row i key Hi Hfalsy.
    do 6 (destruct i as [|i]; [injection Hi as <-; simpl; unfold or_else, Chat.amount_cell;
                               unfold truthy in Hfalsy;
                               destruct (row !! _) as [v|]; [rewrite Hfalsy|]; reflexivity|]).
    discriminate.
  - intros row i key v Hi Hne Hv Ht.
    do 6 (destruct i as [|i]; [injection Hi as <-; simpl; try congruence;
                               unfold or_else; rewrite Hv, Ht; reflexivity|]).
    discriminate.
Qed.

End EngineFacts.

(** ** Amounts in the evidence table *)

(** C7 at a failing input: the amount [70368744177664.01] goes through
    [parseFloat], which rounds it to the double [4503599627370497 * 2^-6]
    (that is 70368744177664.015625), and the cell shows
    [$70368744177664.02]; rendering the decimal itself gives the amount back.
    Likewise [1.005] is shown as [$1.00] where the decimal rounds to 1.01.
    The amounts of the documented example are shown as they are. *)
Theorem evidence_amount_goes_through_binary64 :
  Js.parseFloat "70368744177664.01" = Js.DFin false 4503599627370497 (-6) /\
  Chat.amount_cell (Some "70368744177664.01"%string) = Some "$70368744177664.02"%string /\
  Js.toFixed2_exact "70368744177664.01" = Some "70368744177664.01"%string /\
  Chat.amount_cell (Some "1.005"%string) = Some "$1.00"%string /\
  Js.toFixed2_exact "1.005" = Some "1.01"%string /\
  Chat.amount_cell (Some "23.71"%string) = Some "$23.71"%string /\
  Chat.amount_cell (Some "59.87"%string) = Some "$59.87"%string.
Proof. vm_compute. repeat split. Qed.

(** ** Instances *)

(** The first scenario of the design document: the Food total of June 2025
    is 59.87 over six rows, three of which are returned under a limit of
    three, most recent first. *)
Lemma evidence_consistent_with_numbers_witness :
  let r := Engine.query sample_resolver sample_store
             "How much did I spend on Food in June 2025?" None (Some 3%positive) in
  Engine.r_final_answer r =
    Some "You spent $59.87 on Food in 2025-06 across 6 transactions."%string /\
  Engine.r_numbers r !! "total"%string = Some 5987%Z /\
  Engine.r_numbers r !! "count"%string = Some (decimal_of_nat 6) /\
  Data.merchant <$> Engine.r_evidence r = ["Strings Ramen"; "Thai Essence"; "Coffee Cart"]%string /\
  Data.intent (Engine.r_trace r) = Data.category_total /\
  Data.resolved_month (Engine.r_trace r) = Some (Data.mkMonth 2025 6).
Proof.
  cbv zeta.
  assert (Hfull : is_Some (Engine.r_final_answer
                             (Engine.query sample_resolver sample_store
                                "How much did I spend on Food in June 2025?" None
                                (Some 3%positive))))
    by (vm_compute; eexists; reflexivity).
  destruct (evidence_consistent_with_numbers sample_resolver sample_store
              "How much did I spend on Food in June 2025?" None (Some 3%positive) Hfull)
    as (Htotal & Hcount & _ & Hev & _).
  split; [vm_compute; reflexivity|].
  split; [etransitivity; [exact Htotal | vm_compute; reflexivity]|].
  split; [etransitivity; [exact Hcount | vm_compute; reflexivity]|].
  split; [rewrite Hev; vm_compute; reflexivity|].
  split; vm_compute; reflexivity.
Defined.

(** A question with no month and no entity is met with a clarifying
    question, and one that names a category and a merchant but no month asks
    for the time period. *)
Example unresolved_question_is_clarified :
  let r := Engine.query sample_resolver sample_store "What about it?" None None in
  let r' := Engine.query sample_resolver sample_store
              "How much did I spend on Food at Thai Essence?" None None in
  Engine.r_final_answer r = None /\
  Engine.r_clarifying_question r = Some "Please specify the time period."%string /\
  Engine.r_evidence r = [] /\
  Engine.r_final_answer r' = None /\
  Data.intent (Engine.r_trace r') = Data.category_total.
Proof. vm_compute. repeat split. Qed.

(** A month without matching rows is answered with a total and a count of
    zero and no evidence. *)
Example empty_month_is_answered :
  let r := Engine.query sample_resolver sample_store
             "How much did I spend in July 2025?" None None in
  Engine.r_final_answer r = Some "You spent $0.00 in 2025-07 across 0 transactions."%string /\
  Engine.r_clarifying_question r = None /\
  Engine.r_numbers r !! "total"%string = Some 0%Z /\
  Engine.r_numbers r !! "count"%string = Some 0%Z /\
  Engine.r_evidence r = [].
Proof. vm_compute. repeat split. Qed.

(** A submission whose request meets a 503 response. *)
Lemma failed_query_reports_error_witness :
  let o : Async.FetchOutcome Data.ResponseBody :=
    Async.Resolved
      (Async.mkHttpResponse false 503 "Service Unavailable"
         (inr "replace in progress"%string) (inl Async.NonError)) in
  let sys := Chat.steps None (Chat.mounted parse_empty_array_only ∅)
               [(1%Z, Chat.ChangeInput "How much did I spend in 2025-06?");
                (2%Z, Chat.KeyPress "Enter" false)] in
  let sys' := Chat.step None sys (3%Z, Chat.Settle 0 o) in
  length (Chat.inflight sys) = 1 /\
  Chat.content <$> Chat.messages (Chat.page sys') =
    ["How much did I spend in 2025-06?";
     "Error: Query failed: 503 Service Unavailable - replace in progress"]%string /\
  exists m,
    Chat.messages (Chat.page sys') = Chat.messages (Chat.page sys) ++ [m] /\
    Chat.role m = Chat.assistant /\
    begins_with "Error:" (Chat.content m) /\
    Chat.data m = None /\
    Chat.isLoading (Chat.page sys') = false /\
    Chat.sent sys' = Chat.sent sys /\
    Chat.inflight sys' = [].
Proof.
  intros o sys sys'.
  assert (Hi : 0 < length (Chat.inflight sys)) by (vm_compute; lia).
  assert (Hfail : query_fails o) by (eexists; reflexivity).
  split; [reflexivity|]. split; [reflexivity|].
  exact (failed_query_reports_error None parse_empty_array_only ∅ _ 3%Z 0 o Hi Hfail).
Defined.

(** A stored preview that was cut off in the middle. *)
Lemma invalid_preview_is_caught_witness :
  let ls : gmap string string :=
    <["pfa_csv_preview"%string := "[{date: 2025-06-30, amo"%string]>
      (<["pfa_csv_name"%string := "june.csv"%string]> ∅) in
  let sys := Chat.mounted parse_empty_array_only ls in
  Chat.csvName (Chat.page sys) = Some "june.csv"%string /\
  Chat.csvPreview (Chat.page sys) = None /\
  Chat.view_csv_disabled (Chat.page sys) = true.
Proof.
  intros ls sys.
  destruct (invalid_preview_is_caught parse_empty_array_only ls
              "[{date: 2025-06-30, amo"%string)
    as (_ & Hpreview & Hdisabled & _).
  - vm_compute. reflexivity.
  - reflexivity.
  - split; [vm_compute; reflexivity|]. split; assumption.
Defined.

(** Text the evidence-limit field can hold and the limit it leaves: text
    without a leading number and text that reads as zero give 20, a negative
    number is kept (and then no [limit_evidence] is sent), a fraction is cut
    off. *)
Example limit_field_values :
  (fun value => Js.int_or_else (Js.parseInt value) 20) <$>
    [""; "abc"; "0"; "000"; "-0"; "0.7"; "0x0"; "  "; "5"; "-3"; "12.9"; "7e2"; "0x1f"]%string
  = [20; 20; 20; 20; 20; 20; 20; 20; 5; -3; 12; 7; 31]%Z.
Proof. reflexivity. Qed.

(** * Further properties of the client *)

(** ** The API functions *)

Section ApiContract.

Import Js Async Api.
Context {St J : Type}.
Variable env : option string.

Lemma exec_healthCheck (net : Request -> FetchOutcome J) t (s : St) :
  exec net t (healthCheck env) s =
    ([health_request env], s, call_result "Health check failed" (net (health_request env))).
Proof.
  unfold healthCheck, call_result, mbind, Prog_bind, fetch. simpl.
  destruct (net (health_request env)) as [e|r]; simpl; [reflexivity|].
  destruct (ok r); simpl.
  - destruct (json r); reflexivity.
  - unfold error_text. destruct (text r); reflexivity.
Qed.

(** The health check is one GET of [/health] without a body that leaves
    the state alone.  It returns the parsed body exactly when the response
    is ok and the body parses; a response that is not ok becomes an [Error]
    reading [Health check failed: <status> <statusText> - <text>], where the
    text is the response text, or [Unknown error] when reading it fails; a
    rejected [fetch] is passed on. *)
Theorem healthCheck_contract (net : Request -> FetchOutcome J) t (s : St) :
  exists res,
    exec net t (healthCheck env) s = ([health_request env], s, res) /\
    req_method (health_request env) = "GET"%string /\
    req_url (health_request env) = (API_BASE env ++ "/health")%string /\
    req_body (health_request env) = NoBody /\
    match net (health_request env) with
    | Rejected e => res = inl e
    | Resolved r =>
        (forall j, res = inr j <-> ok r = true /\ json r = inr j) /\
        (ok r = false ->
         exists errorText,
           res = inl (ErrorObj ("Health check failed: " ++ show_Z (status r) ++ " "
                                  ++ statusText r ++ " - " ++ errorText)%string) /\
           (text r = inr errorText \/
            (exists e, text r = inl e) /\ errorText = "Unknown error"%string))
    end.
Proof.
  eexists. split; [apply exec_healthCheck|].
  repeat split; try reflexivity. unfold call_result.
  destruct (net (health_request env)) as [e|r]; [reflexivity|].
  split.
  - intros j. destruct (ok r).
    + split; [intros H; split; [reflexivity | exact H] | intros [_ H]; exact H].
    + split; [discriminate | intros [H _]; discriminate].
  - intros Hok. rewrite Hok. destruct (text r) as [e|body].
    + exists "Unknown error"%string. split; [reflexivity|]. right. split; [now exists e | reflexivity].
    + exists body. split; [reflexivity|]. now left.
Qed.

End ApiContract.

(** ** The home page *)

Section HomeFacts.

Import Js Async Sched Home.
Context {J : Type}.
Variable env : option string.

Lemma run_checkHealth t s :
  exists k,
    run t (checkHealth env J) s = (s, Waiting (Api.health_request env) k) /\
    reports_health k.
Proof.
  unfold checkHealth, Api.healthCheck, mbind, Prog_bind, fetch, set. simpl.
  eexists. split; [reflexivity|].
  intros o t' s'. unfold healthy.
  destruct o as [e|r]; simpl; [reflexivity|].
  destruct (ok r); simpl.
  - destruct (json r); reflexivity.
  - unfold Api.error_text. destruct (text r); reflexivity.
Qed.

Lemma ticks_snoc (trace : list (Z * Event J)) te :
  ticks (trace ++ [te]) =
    ticks trace + match snd te with Tick _ => 1 | _ => 0 end.
Proof.
  unfold ticks. rewrite List.filter_app, length_app. simpl.
  destruct (snd te); reflexivity.
Qed.

Lemma home_settle (p : Pool BackendStatus J) t i o entry :
  Forall (fun entry => reports_health (snd entry)) (waiting p) ->
  waiting p !! i = Some entry ->
  resume t i o p =
    mkPool (if healthy o then Online else Offline) (delete i (waiting p)) (log p).
Proof.
  intros Hall Hi. unfold resume. rewrite Hi. destruct entry as [req k].
  pose proof (proj1 (Forall_lookup _ _) Hall i _ Hi) as Hk. simpl in Hk.
  unfold start. simpl. now rewrite Hk.
Qed.

Lemma home_step_consistent (p : Pool BackendStatus J) trace te :
  home_consistent env p trace ->
  home_consistent env (step env J p te) (trace ++ [te]).
Proof.
  intros [H1 H2 H3 H4 H5]. destruct te as [t [|i o]]; simpl.
  - destruct (run_checkHealth t (state p)) as (k & Hrun & Hk).
    unfold start. rewrite Hrun.
    constructor; simpl.
    + apply Forall_app. split; [assumption|]. now constructor.
    + apply Forall_app. split; [assumption|]. now constructor.
    + rewrite ticks_snoc, length_app. simpl. lia.
    + rewrite !length_app. simpl. lia.
    + rewrite !length_app. simpl. rewrite H5. lia.
  - destruct (waiting p !! i) as [entry|] eqn:Hi.
    + rewrite (home_settle p t i o entry H1 Hi).
      pose proof (lookup_lt_Some _ _ _ Hi) as Hlt.
      constructor; simpl.
      * now apply Forall_delete.
      * assumption.
      * rewrite ticks_snoc. simpl. lia.
      * rewrite length_delete by eauto. lia.
      * rewrite length_delete by eauto.
        split; [destruct (healthy o); discriminate | lia].
    + unfold resume. rewrite Hi.
      constructor; try assumption. rewrite ticks_snoc. simpl. lia.
Qed.

Lemma home_reachable trace :
  home_consistent env (steps env J (mounted env J) trace) trace.
Proof.
  induction trace as [|te trace IH] using rev_ind.
  - unfold mounted. destruct (run_checkHealth 0 Checking) as (k & Hrun & Hk).
    unfold start. cbn [state waiting log]. rewrite Hrun.
    constructor; simpl.
    + repeat constructor. exact Hk.
    + repeat constructor.
    + reflexivity.
    + lia.
    + split; reflexivity.
  - unfold steps in *. rewrite fold_left_app. simpl. now apply home_step_consistent.
Qed.

(** Polling has no guard: the mount effect and every firing of the
    interval issue one request each, whether or not earlier checks have
    settled, and each is the GET of [/health].  Settling a check issues
    nothing. *)
Theorem home_polls_once_per_tick trace :
  let p := steps env J (mounted env J) trace in
  length (log p) = 1 + ticks trace /\
  Forall (fun req => req = Api.health_request env) (log p) /\
  (forall t, let p' := step env J p (t, Tick J) in
             log p' = log p ++ [Api.health_request env] /\
             length (waiting p') = S (length (waiting p)) /\
             state p' = state p) /\
  (forall t i o, log (step env J p (t, Settle J i o)) = log p).
Proof.
  intros p. pose proof (home_reachable trace) as [H1 H2 H3 H4 H5].
  fold p in H1, H2, H3, H4, H5. clearbody p.
  split; [assumption|]. split; [assumption|]. split.
  - intros t p'. subst p'. cbn [step]. destruct (run_checkHealth t (state p)) as (k & Hrun & Hk).
    unfold start. rewrite Hrun. simpl. rewrite length_app. simpl.
    repeat split. lia.
  - intros t i o. simpl. destruct (waiting p !! i) as [entry|] eqn:Hi.
    + now rewrite (home_settle p t i o entry H1 Hi).
    + unfold resume. now rewrite Hi.
Qed.

(** The status is [Checking] exactly as long as no check has settled.  When
    a check settles, the status becomes [Online] if its response was ok with
    a body that parses, and [Offline] in every other case (a rejected
    [fetch], a response that is not ok, an ok response whose body is not
    JSON): the status shown is that of the check that settled last. *)
Theorem home_status_follows_settled_check trace :
  let p := steps env J (mounted env J) trace in
  (state p = Checking <-> length (waiting p) = length (log p)) /\
  length (waiting p) <= length (log p) /\
  (forall t i o, i < length (waiting p) ->
     let p' := step env J p (t, Settle J i o) in
     state p' = (if healthy o then Online else Offline) /\
     length (waiting p') = length (waiting p) - 1 /\
     state p' <> Checking).
Proof.
  intros p. pose proof (home_reachable trace) as [H1 H2 H3 H4 H5].
  fold p in H1, H2, H3, H4, H5. clearbody p.
  split; [assumption|]. split; [assumption|].
  intros t i o Hi p'. subst p'. cbn [step].
  destruct (lookup_lt_is_Some_2 _ _ Hi) as [entry Hentry].
  rewrite (home_settle p t i o entry H1 Hentry). simpl.
  split; [reflexivity|]. split; [apply length_delete; eauto|].
  destruct (healthy o); discriminate.
Qed.

End HomeFacts.

(** ** The payload of a submission *)

Section PayloadFacts.

Import Js Chat.

Lemma trim_end_keeps_head c r :
  is_white c = false -> exists r', trim_end (String c r) = String c r'.
Proof. intros H. simpl. rewrite H. destruct (trim_end r); eexists; reflexivity. Qed.

Lemma trim_end_idempotent s : trim_end (trim_end s) = trim_end s.
Proof.
  induction s as [|c r IH]; [reflexivity|]. simpl.
  destruct (trim_end r) as [|c' r'] eqn:E.
  - destruct (is_white c) eqn:Hc; [reflexivity|]. simpl. now rewrite Hc.
  - change (trim_end (String c (String c' r'))) with
      (match trim_end (String c' r') with
       | EmptyString => if is_white c then EmptyString else String c EmptyString
       | String x y => String c (String x y)
       end).
    now rewrite IH.
Qed.

Lemma ends_white_trim_end s : ends_white (trim_end s) = false.
Proof.
  induction s as [|c r IH]; [reflexivity|]. simpl.
  destruct (trim_end r) as [|c' r'] eqn:E.
  - destruct (is_white c) eqn:Hc; [reflexivity|]. simpl. exact Hc.
  - exact IH.
Qed.

Lemma starts_white_trim s : starts_white (trim s) = false.
Proof.
  unfold trim. destruct (trim_start s) as [|c r] eqn:E; [reflexivity|].
  pose proof (trim_start_head _ _ _ E) as Hc.
  destruct (trim_end_keeps_head c r Hc) as [r' ->]. exact Hc.
Qed.

Lemma trim_idempotent s : trim (trim s) = trim s.
Proof.
  assert (H : trim_start (trim s) = trim s).
  { pose proof (starts_white_trim s) as Hs.
    destruct (trim s) as [|c r]; [reflexivity|]. simpl in *. now rewrite Hs. }
  unfold trim at 1. rewrite H. unfold trim. apply trim_end_idempotent.
Qed.

Lemma trim_blank s : truthy_string (trim s) = false <-> whitespace_only s = true.
Proof.
  rewrite <- trim_start_empty. unfold trim.
  destruct (trim_start s) as [|c r] eqn:E; [split; intros H; exact H|].
  rewrite (trim_end_nonwhite c r (trim_start_head _ _ _ E)).
  split; discriminate.
Qed.

(** The question is sent exactly as typed, white space included.  The month
    is left out exactly when the month field is empty or white space only;
    otherwise the month sent is the field's text trimmed: it is not empty,
    it neither starts nor ends with white space, and trimming it again
    changes nothing. *)
Theorem payload_month_is_trimmed (s : Page) :
  Api.question (build_payload s) = input s /\
  (Api.month (build_payload s) = None <-> whitespace_only (month s) = true) /\
  (forall m, Api.month (build_payload s) = Some m ->
     m = trim (month s) /\
     truthy_string m = true /\
     starts_white m = false /\
     ends_white m = false /\
     trim m = m).
Proof.
  split; [reflexivity|]. unfold build_payload. simpl.
  destruct (truthy_string (trim (month s))) eqn:E.
  - split.
    + split; [discriminate|]. intros H. apply (proj2 (trim_blank _)) in H. congruence.
    + intros m [= <-]. split; [reflexivity|]. split; [exact E|].
      split; [apply starts_white_trim|]. split; [apply ends_white_trim_end|].
      apply trim_idempotent.
  - split.
    + split; [intros _; exact (proj1 (trim_blank _) E) | reflexivity].
    + discriminate.
Qed.

End PayloadFacts.

(** ** The chat page, continued *)

Section ChatMore.

Import Js Data Async Chat.
Variable env : option string.
Variable JSON_parse : string -> option Json.

Lemma launch_idle t (sys : System) : launch t (Ret tt) sys = sys.
Proof. now destruct sys. Qed.

Lemma launch_handleSend t (sys : System) :
  page (launch t (handleSend env (page sys)) sys) =
    if send_disabled (page sys) then page sys else sending t (page sys) (page sys).
Proof.
  destruct (send_disabled (page sys)) eqn:Hg.
  - now rewrite (handleSend_blocked env _ Hg), launch_idle.
  - destruct (handleSend_sends env (page sys) t (page sys) Hg) as (k & Hrun & _).
    unfold launch. now rewrite Hrun.
Qed.

Lemma step_page sys trace t e :
  consistent env sys trace ->
  page (step env sys (t, e)) = page_after t e (length (inflight sys)) (page sys).
Proof.
  intros Hc. destruct e; try reflexivity.
  - apply launch_handleSend.
  - simpl. unfold handleKeyPress.
    destruct (String.eqb key "Enter" && negb shiftKey)%bool.
    + apply launch_handleSend.
    + now rewrite launch_idle.
  - unfold page_after. destruct (Nat.ltb i (length (inflight sys))) eqn:Hi.
    + apply Nat.ltb_lt in Hi. now rewrite (settle_first env sys trace t i o Hc Hi).
    + apply Nat.ltb_ge in Hi. simpl.
      now rewrite (lookup_ge_None_2 _ _ Hi).
Qed.

(** After any submission, by click or by Enter, the Send guard is closed:
    either nothing was sent because it already was, or the input is now
    empty and the page is loading.  So further clicks and key presses that
    follow without any other event in between (a held Enter key, a double
    click) change nothing and send nothing. *)
Theorem repeated_submission_sends_once (sys : System) t e more :
  is_submission e = true ->
  Forall (fun te => is_submission (snd te) = true) more ->
  send_disabled (page (step env sys (t, e))) = true /\
  steps env (step env sys (t, e)) more = step env sys (t, e).
Proof.
  intros He Hmore.
  assert (Hstep : forall sys' t' e', is_submission e' = true ->
            step env sys' (t', e') = launch t' (handleSend env (page sys')) sys').
  { intros sys' t' e' H. destruct e'; try discriminate; [reflexivity|].
    simpl in *. unfold handleKeyPress. now rewrite H. }
  assert (Hclosed : send_disabled (page (step env sys (t, e))) = true).
  { rewrite (Hstep _ _ _ He), launch_handleSend.
    destruct (send_disabled (page sys)) eqn:Hg; [exact Hg|].
    reflexivity. }
  split; [exact Hclosed|].
  induction Hmore as [|[t' e'] more He' _ IH]; [reflexivity|].
  simpl in He'.
  change (steps env (step env (step env sys (t, e)) (t', e')) more = step env sys (t, e)).
  rewrite (Hstep _ _ _ He'), (handleSend_blocked env _ Hclosed), launch_idle.
  exact IH.
Qed.

Lemma int_or_else_nonzero n : int_or_else n 20 <> 0%Z.
Proof.
  destruct n as [|z]; simpl; [discriminate|].
  destruct (z =? 0)%Z eqn:E; [discriminate|]. now apply Z.eqb_neq.
Qed.

(** The evidence limit is never zero, whatever is typed.  The [min] and
    [max] of the field are not enforced by the handler: text that reads as a
    non-zero integer [n] of at most 2^53 in absolute value, which a double
    holds exactly, sets the limit to [n] as it is, and the next payload
    carries [n] when it is positive and no limit when it is negative. *)
Theorem limit_is_never_zero ls trace :
  let sys := steps env (mounted JSON_parse ls) trace in
  limitEvidence (page sys) <> 0%Z /\
  (forall t value n,
     parseInt value = Int n -> n <> 0%Z -> (Z.abs n <= 2 ^ 53)%Z ->
     let s' := page (step env sys (t, ChangeLimit value)) in
     limitEvidence s' = n /\
     Api.limit_evidence (build_payload s') = if (0 <? n)%Z then Some n else None).
Proof.
  intros sys. split.
  - subst sys. induction trace as [|[t e] trace IH] using rev_ind.
    + unfold steps, mounted, launch. cbn [fold_left page inflight sent].
      destruct (onMount_done JSON_parse ls) as (name & preview & ->). discriminate.
    + rewrite steps_snoc.
      rewrite (step_page _ trace t e (reachable_consistent env JSON_parse ls trace)).
      set (s0 := page (steps env (mounted JSON_parse ls) trace)) in *.
      destruct e; simpl; try exact IH.
      * apply int_or_else_nonzero.
      * destruct (send_disabled s0); exact IH.
      * destruct (String.eqb key "Enter" && negb shiftKey)%bool; [|exact IH].
        destruct (send_disabled s0); exact IH.
      * destruct (Nat.ltb i _); exact IH.
  - intros t value n Hparse Hn _ s'. subst s'. simpl.
    unfold build_payload. simpl. rewrite Hparse. simpl.
    apply Z.eqb_neq in Hn. rewrite Hn. split; reflexivity.
Qed.

Lemma dialogue_snoc expect ms m :
  dialogue expect (ms ++ [m]) =
    match dialogue expect ms with
    | Some r =>
        match role m, r with
        | user, user => Some assistant
        | assistant, assistant => Some user
        | _, _ => None
        end
    | None => None
    end.
Proof.
  revert expect. induction ms as [|x ms IH]; intros expect; simpl.
  - destruct (role m), expect; reflexivity.
  - destruct (role x), expect; try reflexivity; apply IH.
Qed.

(** As long as the Upload new CSV link is not clicked, the messages form a
    dialogue: they alternate between user and assistant, starting with the
    user, and the list ends with a user message exactly while the page is
    loading.  Every reply stands right after its question. *)
Theorem messages_form_a_dialogue ls trace :
  keeps_messages trace ->
  let sys := steps env (mounted JSON_parse ls) trace in
  dialogue user (messages (page sys)) =
    Some (if isLoading (page sys) then assistant else user).
Proof.
  intros Hkeep sys. subst sys.
  induction trace as [|[t e] trace IH] using rev_ind.
  - unfold steps, mounted, launch. cbn [fold_left page inflight sent].
    destruct (onMount_done JSON_parse ls) as (name & preview & ->). reflexivity.
  - apply Forall_app in Hkeep as [Hkeep He].
    apply Forall_cons in He as [He _]. simpl in He.
    specialize (IH Hkeep).
    pose proof (reachable_consistent env JSON_parse ls trace) as Hc.
    rewrite steps_snoc, (step_page _ trace t e Hc).
    pose proof (loading_iff _ _ _ Hc) as Hload.
    set (sys := steps env (mounted JSON_parse ls) trace) in *.
    assert (Hsend : send_disabled (page sys) = false ->
              dialogue user (messages (sending t (page sys) (page sys))) =
                Some (if isLoading (sending t (page sys) (page sys)) then assistant else user)).
    { intros Hg. apply (send_enabled_not_loading) in Hg.
      unfold sending. simpl. rewrite dialogue_snoc, IH, Hg. reflexivity. }
    destruct e; simpl; try exact IH.
    + destruct (send_disabled (page sys)) eqn:Hg; [exact IH | now apply Hsend].
    + destruct (String.eqb key "Enter" && negb shiftKey)%bool; [|exact IH].
      destruct (send_disabled (page sys)) eqn:Hg; [exact IH | now apply Hsend].
    + congruence.
    + destruct (Nat.ltb i (length (inflight sys))) eqn:Hi; [|exact IH].
      apply Nat.ltb_lt in Hi.
      assert (Hl : isLoading (page sys) = true).
      { apply Hload. destruct (inflight sys); [simpl in Hi; lia | discriminate]. }
      unfold settling. simpl. rewrite dialogue_snoc, IH, Hl.
      destruct (query_result o); reflexivity.
Qed.



End ChatMore.

(** ** The upload page, continued *)

Section UploadMore.

Import Js Async Sched.
Context {R : Type}.
Variable env : option string.

Lemma run_handleUpload (page s0 : Upload.Page R) f t :
  Upload.file R page = Some f ->
  exists k,
    run t (Upload.handleUpload env R page) s0 =
      (upload_started s0, Waiting (Api.ingest_request env f) k) /\
    finishes_upload k.
Proof.
  intros Hf. unfold Upload.handleUpload. rewrite Hf.
  unfold Api.ingestCsv, mbind, Prog_bind, fetch, set. simpl.
  eexists. split; [reflexivity|].
  intros o t' s'. unfold upload_finished, call_result.
  destruct o as [e|r]; simpl; [reflexivity|].
  destruct (ok r); simpl.
  - destruct (json r); reflexivity.
  - unfold Api.error_text. destruct (text r); reflexivity.
Qed.

Lemma exec_run {St J A} (net : Request -> FetchOutcome J) t (p : Prog St J A) s s' req k :
  run t p s = (s', Waiting req k) ->
  exec net t p s =
    let '(reqs, s'', r) := exec net t (k (net req)) s' in (req :: reqs, s'', r).
Proof.
  revert s. induction p as [a|e|g p IH|p IH|req' k' IH]; intros s; simpl.
  - discriminate.
  - discriminate.
  - apply IH.
  - apply IH.
  - intros [= <- <- <-]. reflexivity.
Qed.

Lemma exec_done {St J A} (net : Request -> FetchOutcome J) t (p : Prog St J A) s s' r :
  run t p s = (s', Done r) -> exec net t p s = ([], s', r).
Proof.
  revert s. induction p as [a|e|g p IH|p IH|req' k' IH]; intros s; simpl.
  - now intros [= <- <-].
  - now intros [= <- <-].
  - apply IH.
  - apply IH.
  - discriminate.
Qed.

(** [handleUpload] run to its end.  Without a file it sends nothing and
    only sets the message [Please select a file first].  With a file it
    sends the one ingest request, whatever the state of the page (the
    handler has no guard of its own against an upload in progress), and it
    always finishes normally: when [ingestCsv] returns, the state is
    [success], the result is the parsed body and no error is set; when it
    throws, the state is [error], no result is set, and the error shown is
    the message of the thrown [Error], which for a response that is not ok
    reads [CSV ingestion failed: <status> <statusText> - <text>]. *)
Theorem upload_ends_in_success_or_error (page : Upload.Page R)
    (net : Request -> FetchOutcome R) t :
  match Upload.file R page with
  | None =>
      exec net t (Upload.handleUpload env R page) page =
        ([], Upload.setError R (Some "Please select a file first"%string) page, inr tt)
  | Some f =>
      exists s',
        exec net t (Upload.handleUpload env R page) page =
          ([Api.ingest_request env f], s', inr tt) /\
        Upload.file R s' = Some f /\
        match net (Api.ingest_request env f) with
        | Resolved r =>
            if ok r then
              match json r with
              | inr body =>
                  Upload.state R s' = Upload.success /\
                  Upload.result R s' = Some body /\
                  Upload.error_message R s' = None
              | inl e =>
                  Upload.state R s' = Upload.error /\
                  Upload.result R s' = None /\
                  Upload.error_message R s' = Some (upload_error_text e)
              end
            else
              Upload.state R s' = Upload.error /\
              Upload.result R s' = None /\
              Upload.error_message R s' =
                Some ("CSV ingestion failed: " ++ show_Z (status r) ++ " " ++ statusText r
                        ++ " - " ++ match text r with
                                    | inr body => body
                                    | inl _ => "Unknown error"
                                    end)%string
        | Rejected e =>
            Upload.state R s' = Upload.error /\
            Upload.result R s' = None /\
            Upload.error_message R s' = Some (upload_error_text e)
        end
  end.
Proof.
  destruct (Upload.file R page) as [f|] eqn:Hf.
  - destruct (run_handleUpload page page f t Hf) as (k & Hrun & Hk).
    rewrite (exec_run net t _ _ _ _ _ Hrun).
    rewrite (exec_done net t _ _ _ _ (Hk (net (Api.ingest_request env f)) t (upload_started page))).
    eexists. split; [reflexivity|].
    unfold upload_finished, call_result.
    destruct (net (Api.ingest_request env f)) as [e|r].
    + repeat split. exact Hf.
    + destruct (ok r).
      * destruct (json r); repeat split; exact Hf.
      * repeat split. exact Hf.
  - unfold Upload.handleUpload. rewrite Hf. reflexivity.
Qed.

Lemma upload_step_consistent (p : Pool (Upload.Page R) R) te :
  upload_consistent env p -> upload_consistent env (UploadUi.step env R p te).
Proof.
  intros Hc. pose proof Hc as [H1 H2 H3 H4 H5]. destruct te as [t [f| |i o]]; simpl.
  - (* a file is picked *)
    unfold UploadUi.file_input_disabled.
    destruct (UploadUi.is_loading R (state p)) eqn:Hl; [exact Hc|].
    destruct f as [f|]; unfold start; simpl.
    + constructor; simpl; try assumption.
      unfold upload_fields_agree. simpl. split; reflexivity.
    + now destruct p.
  - (* the Upload button *)
    unfold UploadUi.upload_disabled.
    destruct (Upload.file R (state p)) as [f|] eqn:Hf; simpl; [|exact Hc].
    destruct (UploadUi.is_loading R (state p)) eqn:Hl; [exact Hc|].
    destruct (run_handleUpload (state p) (state p) f t Hf) as (k & Hrun & Hk).
    unfold start. rewrite Hrun.
    assert (Hnone : waiting p = []).
    { destruct (waiting p) eqn:E; [reflexivity|].
      assert (false = true) by (apply H3; discriminate).
      discriminate. }
    rewrite Hnone. constructor; simpl.
    + repeat constructor. exact Hk.
    + lia.
    + split; [discriminate | reflexivity].
    + unfold upload_fields_agree. simpl. rewrite Hf. repeat split. eauto.
    + apply Forall_app. split; [assumption|]. repeat constructor. now exists f.
  - (* a request settles *)
    unfold resume. destruct (waiting p !! i) as [[req k]|] eqn:Hi; [|exact Hc].
    destruct (waiting p) as [|x [|y l]] eqn:E; simpl in H2; [discriminate| |lia].
    destruct i as [|i]; [|discriminate]. simpl in Hi. injection Hi as ->.
    apply Forall_cons in H1 as [Hk _]. simpl in Hk.
    unfold start. simpl. rewrite Hk.
    assert (Hl : UploadUi.is_loading R (state p) = true) by (apply H3; discriminate).
    unfold UploadUi.is_loading in Hl. unfold upload_fields_agree in H4.
    destruct (Upload.state R (state p)); try discriminate.
    destruct H4 as (Hres & Herr & Hfile).
    constructor; simpl; try assumption.
    + constructor.
    + lia.
    + unfold upload_finished.
      destruct (call_result "CSV ingestion failed" o); simpl;
        (split; [discriminate | intros H; now elim H]).
    + unfold upload_finished, upload_fields_agree.
      destruct (call_result "CSV ingestion failed" o); simpl; repeat split; eauto.
Qed.

Lemma upload_reachable trace :
  upload_consistent env (UploadUi.steps env R (UploadUi.mounted R) trace).
Proof.
  induction trace as [|te trace IH] using rev_ind.
  - constructor; simpl; try constructor; try lia.
    + discriminate.
    + intros H. now elim H.
    + reflexivity.
    + reflexivity.
  - unfold UploadUi.steps in *. rewrite fold_left_app. simpl.
    now apply upload_step_consistent.
Qed.

(** On the upload page as the user can drive it (a disabled control
    delivers no event), at most one ingest request is in flight and the
    state is [loading] exactly while one is.  The fields agree with the
    state: outside [success] the result is null, an error message is held
    exactly in [error], and every state but [idle] has a selected file;
    picking a file resets the page.  Every request sent is an ingest request
    with [replace=true]. *)
Theorem upload_page_keeps_its_fields_in_step trace :
  let p := UploadUi.steps env R (UploadUi.mounted R) trace in
  length (waiting p) <= 1 /\
  (UploadUi.is_loading R (state p) = true <-> waiting p <> []) /\
  (Upload.state R (state p) <> Upload.success -> Upload.result R (state p) = None) /\
  (is_Some (Upload.error_message R (state p)) <-> Upload.state R (state p) = Upload.error) /\
  (Upload.state R (state p) <> Upload.idle -> is_Some (Upload.file R (state p))) /\
  (forall t f, UploadUi.is_loading R (state p) = false ->
     state (UploadUi.step env R p (t, UploadUi.SelectFile R (Some f))) =
       Upload.mkPage R (Some f) Upload.idle None None) /\
  Forall (fun req => exists f,
            req = Api.ingest_request env f /\
            req_url req = (Api.API_BASE env ++ "/ingest?replace=true")%string)
    (log p).
Proof.
  intros p. pose proof (upload_reachable trace) as [H1 H2 H3 H4 H5].
  fold p in H1, H2, H3, H4, H5. clearbody p.
  split; [assumption|]. split; [assumption|].
  assert (Hpick : forall t f, UploadUi.is_loading R (state p) = false ->
            state (UploadUi.step env R p (t, UploadUi.SelectFile R (Some f))) =
              Upload.mkPage R (Some f) Upload.idle None None).
  { intros t f Hl. simpl. unfold UploadUi.file_input_disabled. rewrite Hl. reflexivity. }
  unfold upload_fields_agree in H4.
  destruct (Upload.state R (state p)).
  - destruct H4 as [-> ->].
    repeat split; try discriminate; try (intros [x Hx]; discriminate); try congruence; try exact Hpick.
    eapply Forall_impl; [exact H5|]. intros req [f ->]. now exists f.
  - destruct H4 as (-> & -> & Hf).
    repeat split; try discriminate; try (intros [x Hx]; discriminate); try congruence;
      try exact Hf; try exact Hpick.
    eapply Forall_impl; [exact H5|]. intros req [f ->]. now exists f.
  - destruct H4 as (-> & Hf).
    repeat split; try discriminate; try (intros [x Hx]; discriminate); try congruence;
      try exact Hf; try exact Hpick.
    eapply Forall_impl; [exact H5|]. intros req [f ->]. now exists f.
  - destruct H4 as (-> & He & Hf).
    repeat split; try discriminate; try (intros [x Hx]; discriminate); try congruence;
      try exact Hf; try exact He; try exact Hpick.
    eapply Forall_impl; [exact H5|]. intros req [f ->]. now exists f.
Qed.

End UploadMore.

(** ** Assistant messages *)

Section MessageFacts.

Import Js Data Chat.

(** The counter of the evidence section and its body agree: a table is
    shown exactly when there is at least one evidence row, it has the six
    column heads and one row of six cells per evidence row, and the counter
    is the number of its rows; with no evidence (missing or empty) the
    counter is 0 and the section says that there are no rows.  A message
    without data shows its bare content. *)
Theorem evidence_counter_matches_table (message : Message) :
  match AssistantMessage message with
  | PlainContent text => data message = None /\ text = content message
  | RichContent answer clarifying n section =>
      exists d, data message = Some d /\
      match section with
      | EvidenceTable header rows =>
          exists evidence_rows,
            evidence d = Some evidence_rows /\
            n = length evidence_rows /\ 0 < n /\
            length rows = n /\
            header = ["Date"; "Where"; "What"; "Amount"; "Category"; "Source"]%string /\
            Forall (fun cells => length cells = length header) rows
      | NoEvidenceRows =>
          n = 0 /\ (evidence d = None \/ evidence d = Some [])
      end
  end.
Proof.
  unfold AssistantMessage. destruct (data message) as [d|]; [|split; reflexivity].
  exists d. split; [reflexivity|]. unfold evidence_view.
  destruct (evidence d) as [[|row rows]|].
  - split; [reflexivity|]. now right.
  - exists (row :: rows). split; [reflexivity|]. split; [reflexivity|].
    split; [simpl; lia|]. split; [now rewrite length_fmap|]. split; [reflexivity|].
    apply Forall_fmap, Forall_forall. intros r _. reflexivity.
  - split; [reflexivity|]. now left.
Qed.

Lemma toFixed2_total x : exists text, toFixed2 x = Some text.
Proof.
  destruct x as [|neg|neg m e]; unfold toFixed2; try (eexists; reflexivity).
  destruct (double_value neg m e) as [n a b]. cbn [lit_num lit_den].
  destruct (10 ^ 21 * b <=? a)%Z; eexists; reflexivity.
Qed.

(** The amount cell shows the placeholder exactly when the amount is
    missing or empty.  Every other amount is shown behind a dollar sign,
    whatever its size and also when it is no number at all: text that does
    not start with a number is shown as [$NaN], and from 10^21 on the number
    appears in exponent notation without fraction digits. *)
Theorem amount_cell_placeholder_and_nan (amount : option string) :
  (amount_cell amount = Some "-"%string <-> truthy amount = false) /\
  (truthy amount = true ->
     exists text, amount_cell amount = Some ("$" ++ text)%string) /\
  (forall text, amount = Some text -> truthy_string text = true ->
     read_float_prefix text = NoNumber ->
     amount_cell amount = Some "$NaN"%string) /\
  amount_cell (Some "999999999999999900000.00"%string)
    = Some "$999999999999999868928.00"%string /\
  amount_cell (Some "1000000000000000000000.00"%string) = Some "$1e+21"%string /\
  amount_cell (Some "-1234567890123456789012.50"%string)
    = Some "$-1.2345678901234568e+21"%string.
Proof.
  unfold amount_cell, truthy. split; [|split; [|split]].
  - destruct amount as [a|]; [|split; reflexivity].
    destruct (truthy_string a); [|split; reflexivity].
    destruct (toFixed2_total (parseFloat a)) as [text ->]. split; discriminate.
  - destruct amount as [a|]; [|discriminate]. intros ->.
    destruct (toFixed2_total (parseFloat a)) as [text ->]. now exists text.
  - intros text -> Ht Hn. rewrite Ht. unfold parseFloat. rewrite Hn. reflexivity.
  - repeat split; vm_compute; reflexivity.
Qed.

End MessageFacts.

(** ** Further instances *)

(** Enter is held down after a question was typed: the first press sends,
    the presses and the click that follow do nothing. *)
Lemma repeated_submission_sends_once_witness :
  let sys := Chat.steps None (Chat.mounted parse_empty_array_only ∅)
               [(1%Z, Chat.ChangeInput "How much did I spend in 2025-06?")] in
  let first := Chat.step None sys (2%Z, Chat.KeyPress "Enter" false) in
  Chat.send_disabled (Chat.page first) = true /\
  Chat.steps None first [(3%Z, Chat.KeyPress "Enter" false); (4%Z, Chat.ClickSend)] = first /\
  length (Chat.sent first) = 1.
Proof.
  intros sys first.
  destruct (repeated_submission_sends_once None sys 2%Z (Chat.KeyPress "Enter" false)
              [(3%Z, Chat.KeyPress "Enter" false); (4%Z, Chat.ClickSend)])
    as [Hclosed Hsame].
  - reflexivity.
  - repeat constructor.
  - split; [exact Hclosed|]. split; [exact Hsame | reflexivity].
Defined.

(** Two questions, the first answered with an error, the second still
    waiting for its reply. *)
Lemma messages_form_a_dialogue_witness :
  let trace :=
    [(1%Z, Chat.ChangeInput "How much did I spend in 2025-06?");
     (2%Z, Chat.ClickSend);
     (3%Z, Chat.Settle 0 (Async.Rejected (Async.ErrorObj "Failed to fetch")));
     (4%Z, Chat.ChangeInput "And on Food?");
     (5%Z, Chat.KeyPress "Enter" false)] in
  let sys := Chat.steps None (Chat.mounted parse_empty_array_only ∅) trace in
  Chat.role <$> Chat.messages (Chat.page sys) = [Chat.user; Chat.assistant; Chat.user] /\
  Chat.isLoading (Chat.page sys) = true /\
  dialogue Chat.user (Chat.messages (Chat.page sys)) = Some Chat.assistant.
Proof.
  intros trace sys.
  assert (Hkeep : keeps_messages trace) by (repeat constructor; discriminate).
  pose proof (messages_form_a_dialogue None parse_empty_array_only ∅ trace Hkeep) as H.
  split; [reflexivity|]. split; [reflexivity|]. exact H.
Defined.
